(** * The job resolvers of @livepeer/graphql-sdk

    A shallow embedding of [src/@livepeer/graphql-sdk/src/index.js]: the job
    normalizer [transformJob], the resolvers built by [createResolvers]
    ([Query.job], [Query.jobs], [Job.type], [VideoJob.live], [VideoJob.url])
    with their shared [DEAD_JOBS] set, and the argument declarations of
    [createSchema].

    JavaScript values are a small tagged union, plain objects are finite maps
    from property names to values, the [DEAD_JOBS] set is a [gset], and
    [async] functions are resumptions over an explicit state: a computation
    runs until its first [await] of a pending promise and hands back a
    continuation.  The collaborators the package does not own ([Url.resolve],
    [fetch], the RPC client) are parameters of the resolvers; the state keeps
    a trace of every request made to them. *)

From Stdlib Require Import Ascii String.
From stdpp Require Import gmap strings list fin_maps.

#[local] Set Warnings "-register-all".
Local Open Scope string_scope.

(** ** JavaScript values and plain objects *)

Module JS.

Inductive value : Type :=
| undefined
| null
| boolean (b : bool)
| number (n : Z)
| str (s : string).

#[global] Instance value_eq_dec : EqDecision value.
Proof. solve_decision. Defined.

(** The [typeof] operator. *)
Definition typeof (v : value) : string :=
  match v with
  | undefined => "undefined"
  | null => "object"
  | boolean _ => "boolean"
  | number _ => "number"
  | str _ => "string"
  end.

(** A plain object: its own enumerable properties. *)
Abbreviation object := (gmap string value).

(** Property read [o.k]: [undefined] when [o] has no property [k]. *)
Definition get (o : object) (k : string) : value :=
  default undefined (o !! k).

(** Object literal [{ k: v, ...rest }]: the spread properties are written
    after [k], so a property [k] of [rest] wins. *)
Definition literal_spread (k : string) (v : value) (rest : object) : object :=
  rest ∪ {[ k := v ]}.

(** Destructuring [{ k, ...rest }]: the rest object has every own property
    but [k]. *)
Definition rest_without (k : string) (o : object) : object :=
  delete k o.

End JS.

(** ** Raw records, as the RPC collaborator returns them *)

Record RawJob : Type := {
  jobId : Z;
  streamId : string;
  transcodingOptions : list JS.object;
  transcoder : string;
  broadcaster : string;
}.

(** ** Normalized jobs *)

Module Job.

(** [live] and [url] are [JS.undefined] until they are derived. *)
Record t : Type := {
  type : string;
  id : Z;
  broadcaster : string;
  profiles : list JS.object;
  stream : string;
  transcoder : string;
  live : JS.value;
  url : JS.value;
}.

End Job.

(** ** Job Normalizer *)

(** [({ hash, ...profile }) => ({ id: hash, ...profile })] *)
Definition transformProfile (option : JS.object) : JS.object :=
  let hash := JS.get option "hash" in
  let profile := JS.rest_without "hash" option in
  JS.literal_spread "id" hash profile.

(** [transcodingOptions.length ? 'VideoJob' : 'TestJob'] *)
Definition transformJob (raw : RawJob) : Job.t :=
  {| Job.type :=
       if (length (transcodingOptions raw) =? 0)%nat then "TestJob" else "VideoJob";
     Job.id := jobId raw;
     Job.broadcaster := broadcaster raw;
     Job.profiles := map transformProfile (transcodingOptions raw);
     Job.stream := streamId raw;
     Job.transcoder := transcoder raw;
     Job.live := JS.undefined;
     Job.url := JS.undefined |}.

(** A transcoding option of the data model: a content hash and the four
    profile attributes. *)
Definition transcodingOption (hash name bitrate framerate resolution : JS.value)
  : JS.object :=
  {[ "hash" := hash; "name" := name; "bitrate" := bitrate;
     "framerate" := framerate; "resolution" := resolution ]}.

(** The [VideoProfile] shape. *)
Definition videoProfile (id name bitrate framerate resolution : JS.value)
  : JS.object :=
  {[ "id" := id; "name" := name; "bitrate" := bitrate;
     "framerate" := framerate; "resolution" := resolution ]}.

(** ** The state the resolvers run in, and asynchronous computations *)

(** What the resolvers ask of the outside world, in order. *)
Inductive Event : Type :=
| Fetch (videoUrl : string)
| GetJob (id : Z)
| GetJobs (broadcaster : option string).

Record State : Type := {
  DEAD_JOBS : gset Z;
  trace : list Event;
}.

Definition Error : Type := string.

(** How a call or a promise ends. *)
Inductive Outcome (A : Type) : Type :=
| Returned (a : A)
| Thrown (e : Error).
Arguments Returned {A} a.
Arguments Thrown {A} e.

(** A running [async] call: settled, or suspended at an [await] with the
    continuation that runs when it is resumed. *)
Inductive Co (A : Type) : Type :=
| Fin (o : Outcome A)
| Await (k : State -> Co A * State).
Arguments Fin {A} o.
Arguments Await {A} k.

(** An [async] function body: started on a state, it runs synchronously up
    to its first suspension. *)
Definition Async (A : Type) : Type := State -> Co A * State.

Definition ret {A} (a : A) : Async A := fun st => (Fin (Returned a), st).

Fixpoint bind_co {A B} (c : Co A) (f : A -> Async B) (st : State) : Co B * State :=
  match c with
  | Fin (Returned a) => f a st
  | Fin (Thrown e) => (Fin (Thrown e), st)
  | Await k =>
      (Await (fun st' => let (c', st'') := k st' in bind_co c' f st''), st)
  end.

Definition bind {A B} (m : Async A) (f : A -> Async B) : Async B :=
  fun st => let (c, st') := m st in bind_co c f st'.

Fixpoint try_co {A} (c : Co A) (handler : Error -> Async A) (st : State)
  : Co A * State :=
  match c with
  | Fin (Returned a) => (Fin (Returned a), st)
  | Fin (Thrown e) => handler e st
  | Await k =>
      (Await (fun st' => let (c', st'') := k st' in try_co c' handler st''), st)
  end.

(** [try { body } catch (err) { handler }] *)
Definition try_catch {A} (body : Async A) (handler : Error -> Async A) : Async A :=
  fun st => let (c, st') := body st in try_co c handler st'.

(** [await v] on a value that is not a promise: a suspension that resumes
    with [v]. *)
Definition await_value {A} (v : A) : Async A :=
  fun st => (Await (fun st' => (Fin (Returned v), st')), st).

(** Resume a call until it settles. *)
Fixpoint run_co {A} (c : Co A) (st : State) : Outcome A * State :=
  match c with
  | Fin o => (o, st)
  | Await k => let (c', st') := k st in run_co c' st'
  end.

(** A call awaited by its caller, with nothing else running. *)
Definition run {A} (m : Async A) (st : State) : Outcome A * State :=
  let (c, st') := m st in run_co c st'.

(** [Array.prototype.map] over [async] callbacks: every callback runs up to
    its first suspension, in order, before any of them is resumed. *)
Fixpoint start_all {A} (ms : list (Async A)) (st : State) : list (Co A) * State :=
  match ms with
  | [] => ([], st)
  | m :: ms' =>
      let (c, st1) := m st in
      let (cs, st2) := start_all ms' st1 in
      (c :: cs, st2)
  end.

(** The promises of [Promise.all] settle; the values keep the order of the
    promises, and a rejection rejects the whole.  The promises are settled
    here in list order; for the batch of [Query.jobs] any other order leaves
    the same state ([batch_order_irrelevant] below). *)
Fixpoint settle_all {A} (cs : list (Co A)) (st : State) : Outcome (list A) * State :=
  match cs with
  | [] => (Returned [], st)
  | c :: cs' =>
      let (o, st1) := run_co c st in
      let (os, st2) := settle_all cs' st1 in
      (match o, os with
       | Returned a, Returned l => Returned (a :: l)
       | Thrown e, _ => Thrown e
       | Returned _, Thrown e => Thrown e
       end, st2)
  end.

Definition Promise_all {A} (ms : list (Async A)) : Async (list A) :=
  fun st =>
    let (cs, st1) := start_all ms st in
    (Await (fun st2 => let (o, st3) := settle_all cs st2 in (Fin o, st3)), st1).

Declare Scope async_scope.
Delimit Scope async_scope with async.
Notation "x <- m ;; k" := (bind m (fun x => k))
  (at level 100, m at next level, right associativity) : async_scope.
Notation "m ;;; k" := (bind m (fun _ => k))
  (at level 100, right associativity) : async_scope.

(** What the HTTP collaborator answers: only the status is read. *)
Record Response : Type := { status : Z }.

(** Arguments of [Query.jobs]: [dead] and [streamRootUrl] are consumed by
    the resolver, the rest ([broadcaster]) is the filter object passed on. *)
Module JobsArgs.
Record t : Type := {
  dead : bool;
  streamRootUrl : option string;
  broadcaster : option string;
}.
End JobsArgs.

(** [streamRootUrl || '']: an absent (or empty) root is the empty string. *)
Definition or_empty (streamRootUrl : option string) : string :=
  match streamRootUrl with
  | Some s => s
  | None => ""
  end.

(** ** The schema declarations of [createSchema] *)

Module Schema.

Inductive GraphQLType : Type :=
| GraphQLBoolean
| GraphQLInt
| GraphQLString
| GraphQLNonNull (ofType : GraphQLType)
| GraphQLList (ofType : GraphQLType)
| Named (name : string).

(** An argument declaration; [defaultValue] is [JS.undefined] when the
    declaration has none. *)
Record Arg : Type := {
  arg_name : string;
  arg_description : string;
  arg_type : GraphQLType;
  defaultValue : JS.value;
}.

(** Which resolver a field declaration is wired to. *)
Inductive Resolve : Type :=
| no_resolver
| Query_fields_job
| Query_fields_jobs
| VideoJob_fields_live
| VideoJob_fields_url.

Record Field : Type := {
  field_name : string;
  field_type : GraphQLType;
  field_description : string;
  args : list Arg;
  resolve : Resolve;
}.

Inductive Kind : Type := ObjectType | InterfaceType.

Record TypeDecl : Type := {
  kind : Kind;
  name : string;
  description : string;
  fields : list Field;
  interfaces : list string;
}.

Record GraphQLSchema : Type := {
  query : TypeDecl;
  types : list TypeDecl;
}.

Definition DEFAULT_STREAM_ROOT : string := "http://streams.livepeer.org".

Definition plain (n : string) (t : GraphQLType) (d : string) : Field :=
  {| field_name := n; field_type := t; field_description := d;
     args := []; resolve := no_resolver |}.

Definition VideoProfile : TypeDecl :=
  {| kind := ObjectType;
     name := "VideoProfile";
     description := "A video transcoding profile";
     fields :=
       [ plain "id" (GraphQLNonNull GraphQLString) "The video profile id";
         plain "name" (GraphQLNonNull GraphQLString) "The video profile name";
         plain "bitrate" (GraphQLNonNull GraphQLString) "The video profile bitrate";
         plain "framerate" (GraphQLNonNull GraphQLInt) "The video profile framerate";
         plain "resolution" (GraphQLNonNull GraphQLString)
           "The video profile resolution" ];
     interfaces := [] |}.

(** The six fields every job type declares; only the description of
    [type] differs (its double quotes are written as single quotes here). *)
Definition job_fields (type_description : string) : list Field :=
  [ plain "id" (GraphQLNonNull GraphQLInt) "The id of the job";
    plain "broadcaster" (GraphQLNonNull GraphQLString)
      "The ETH address of the job broadcaster";
    plain "profiles" (GraphQLNonNull (GraphQLList (Named "VideoProfile")))
      "Which video profiles are associated with this job";
    plain "stream" (GraphQLNonNull GraphQLString) "The stream id of the job";
    plain "transcoder" (GraphQLNonNull GraphQLString)
      "The ETH address of the job transcoder";
    plain "type" (GraphQLNonNull GraphQLString) type_description ].

Definition Job : TypeDecl :=
  {| kind := InterfaceType;
     name := "Job";
     description := "A video broadcasting job that has been issued on the protocol";
     fields := job_fields "The type of job";
     interfaces := [] |}.

Definition TestJob : TypeDecl :=
  {| kind := ObjectType;
     name := "TestJob";
     description := "A video broadcasting job without any transcoding profiles";
     fields := job_fields "The type of job. Always 'TestJob'";
     interfaces := ["Job"] |}.

Definition VideoJob : TypeDecl :=
  {| kind := ObjectType;
     name := "VideoJob";
     description := "A video broadcasting job";
     fields :=
       job_fields "The type of job. Always 'VideoJob'" ++
       [ {| field_name := "live";
            field_type := GraphQLNonNull GraphQLBoolean;
            field_description := "Whether the job is currently available to stream";
            args :=
              [ {| arg_name := "streamRootUrl";
                   arg_description := "The root url of the job .m3u8 stream";
                   arg_type := GraphQLString;
                   defaultValue := JS.str DEFAULT_STREAM_ROOT |} ];
            resolve := VideoJob_fields_live |};
         {| field_name := "url";
            field_type := GraphQLNonNull GraphQLString;
            field_description :=
              "The url the transcoded .m3u8 stream can be requested from";
            args :=
              [ {| arg_name := "streamRootUrl";
                   arg_description := "The root url of the job .m3u8 stream";
                   arg_type := GraphQLString;
                   defaultValue := JS.str DEFAULT_STREAM_ROOT |} ];
            resolve := VideoJob_fields_url |} ];
     interfaces := ["Job"] |}.

Definition Query : TypeDecl :=
  {| kind := ObjectType;
     name := "Query";
     description := "";
     fields :=
       [ {| field_name := "job";
            field_type := Named "Job";
            field_description := "";
            args :=
              [ {| arg_name := "id";
                   arg_description := "The id of the job";
                   arg_type := GraphQLNonNull GraphQLInt;
                   defaultValue := JS.undefined |} ];
            resolve := Query_fields_job |};
         {| field_name := "jobs";
            field_type := GraphQLNonNull (GraphQLList (Named "Job"));
            field_description := "";
            args :=
              [ {| arg_name := "dead";
                   arg_description := "The id of the job";
                   arg_type := GraphQLBoolean;
                   defaultValue := JS.boolean false |};
                {| arg_name := "streamRootUrl";
                   arg_description := "The root url for m3u8 streams";
                   arg_type := GraphQLString;
                   defaultValue := JS.str DEFAULT_STREAM_ROOT |};
                {| arg_name := "broadcaster";
                   arg_description := "The stream broadcaster ETH address";
                   arg_type := GraphQLString;
                   defaultValue := JS.undefined |} ];
            resolve := Query_fields_jobs |} ];
     interfaces := [] |}.

(** [createSchema({ livepeer, streamRoot = '...' })]: the option
    [streamRoot] is destructured with its default and read nowhere. *)
Definition createSchema (streamRoot : option string) : GraphQLSchema :=
  let streamRoot :=
    default "http://www.streambox.fr/playlists/x36xhzz/" streamRoot in
  {| query := Query; types := [VideoJob; TestJob; VideoProfile] |}.

(** Lookups by name, as a client of the schema reads it. *)
Definition type_named (s : GraphQLSchema) (n : string) : option TypeDecl :=
  List.find (fun t => String.eqb (name t) n) (query s :: types s).

Definition field_named (t : TypeDecl) (n : string) : option Field :=
  List.find (fun f => String.eqb (field_name f) n) (fields t).

Definition arg_named (f : Field) (n : string) : option Arg :=
  List.find (fun a => String.eqb (arg_name a) n) (args f).

(** The declared default of argument [a] of field [f] of type [t]. *)
Definition default_of (s : GraphQLSchema) (t f a : string) : option JS.value :=
  ty ← type_named s t;
  fd ← field_named ty f;
  ar ← arg_named fd a;
  Some (defaultValue ar).

End Schema.

(** ** A reference URL collaborator

    [Url.resolve] belongs to the platform, not to this package; the resolvers
    above take it as a parameter.  This module is the reference resolution
    algorithm of RFC 3986 (section 5.2, with the parsing of appendix B and the
    recomposition of section 5.3), used to run the resolvers on concrete
    inputs. *)

Module Rfc3986.

Record URI : Type := {
  scheme : option string;
  authority : option string;
  path : string;
  query : option string;
  fragment : option string;
}.

Definition one_of (cs : string) (c : Ascii.ascii) : bool :=
  existsb (Ascii.eqb c) (list_ascii_of_string cs).

(** The longest prefix without a stop character, and what follows it. *)
Fixpoint break (stop : Ascii.ascii -> bool) (s : string) : string * string :=
  match s with
  | EmptyString => ("", "")
  | String c s' =>
      if stop c then ("", s)
      else let (a, b) := break stop s' in (String c a, b)
  end.

Definition drop_chars (n : nat) (s : string) : string :=
  String.substring n (String.length s - n) s.

Definition reverse_string (s : string) : string :=
  string_of_list_ascii (List.rev (list_ascii_of_string s)).

(** Appendix B: scheme, authority, path, query and fragment, each cut at
    the first delimiter that can end it. *)
Definition parse (s : string) : URI :=
  let (pre, rest) := break (one_of ":/?#") s in
  let (sch, s1) :=
    match rest with
    | String ":" r => if String.eqb pre "" then (None, s) else (Some pre, r)
    | _ => (None, s)
    end in
  let (auth, s2) :=
    match s1 with
    | String "/" (String "/" r) =>
        let (a, r') := break (one_of "/?#") r in (Some a, r')
    | _ => (None, s1)
    end in
  let (p, s3) := break (one_of "?#") s2 in
  let (q, s4) :=
    match s3 with
    | String "?" r => let (q, r') := break (one_of "#") r in (Some q, r')
    | _ => (None, s3)
    end in
  let frag := match s4 with String "#" r => Some r | _ => None end in
  {| scheme := sch; authority := auth; path := p; query := q; fragment := frag |}.

(** The first path segment of the input buffer, with its leading slash. *)
Definition first_segment (input : string) : string * string :=
  match input with
  | String "/" r => let (seg, r') := break (one_of "/") r in (String "/" seg, r')
  | _ => break (one_of "/") input
  end.

(** Section 5.2.4; [out] is the output buffer, last segment first. *)
Fixpoint remove_dots (fuel : nat) (input : string) (out : list string) : string :=
  match fuel with
  | O => String.concat "" (List.rev out) ++ input
  | S n =>
      if String.eqb input "" then String.concat "" (List.rev out)
      else if String.prefix "../" input then remove_dots n (drop_chars 3 input) out
      else if String.prefix "./" input then remove_dots n (drop_chars 2 input) out
      else if String.prefix "/./" input then remove_dots n (drop_chars 2 input) out
      else if String.eqb input "/." then remove_dots n "/" out
      else if String.prefix "/../" input
           then remove_dots n (drop_chars 3 input) (List.tl out)
      else if String.eqb input "/.." then remove_dots n "/" (List.tl out)
      else if String.eqb input "." || String.eqb input ".." then remove_dots n "" out
      else let (seg, r) := first_segment input in remove_dots n r (seg :: out)
  end.

Definition remove_dot_segments (p : string) : string :=
  remove_dots (S (String.length p)) p [].

(** Section 5.2.3 *)
Definition merge (base : URI) (rel_path : string) : string :=
  match authority base with
  | Some _ =>
      if String.eqb (path base) "" then "/" ++ rel_path
      else
        let (_, r) := break (one_of "/") (reverse_string (path base)) in
        reverse_string r ++ rel_path
  | None =>
      let (_, r) := break (one_of "/") (reverse_string (path base)) in
      reverse_string r ++ rel_path
  end.

(** Section 5.2.2 *)
Definition transform (base r : URI) : URI :=
  match scheme r with
  | Some _ =>
      {| scheme := scheme r; authority := authority r;
         path := remove_dot_segments (path r);
         query := query r; fragment := fragment r |}
  | None =>
      match authority r with
      | Some _ =>
          {| scheme := scheme base; authority := authority r;
             path := remove_dot_segments (path r);
             query := query r; fragment := fragment r |}
      | None =>
          if String.eqb (path r) "" then
            {| scheme := scheme base; authority := authority base;
               path := path base;
               query := match query r with Some q => Some q | None => query base end;
               fragment := fragment r |}
          else
            {| scheme := scheme base; authority := authority base;
               path :=
                 if String.prefix "/" (path r) then remove_dot_segments (path r)
                 else remove_dot_segments (merge base (path r));
               query := query r; fragment := fragment r |}
      end
  end.

(** Section 5.3 *)
Definition recompose (u : URI) : string :=
  match scheme u with Some s => s ++ ":" | None => "" end ++
  match authority u with Some a => "//" ++ a | None => "" end ++
  path u ++
  match query u with Some q => "?" ++ q | None => "" end ++
  match fragment u with Some f => "#" ++ f | None => "" end.

(** Modelled from the spec: [Url.resolve] belongs to the platform's [url]
module, which is not part of this package; the specification names its
semantics, the relative-reference resolution of RFC 3986. *)
Definition resolve (base relative : string) : string :=
  recompose (transform (parse base) (parse relative)).

(** No character of [s] is a stop character. *)
Fixpoint free_of (stop : Ascii.ascii -> bool) (s : string) : bool :=
  match s with
  | EmptyString => true
  | String c s' => negb (stop c) && free_of stop s'
  end.

(** A path segment without delimiters that is not a dot segment. *)
Definition clean_segment (seg : string) : bool :=
  free_of (one_of "/?#") seg && negb (String.eqb seg ".") && negb (String.eqb seg "..").

(** The directory path made of the segments [segs]: it starts and ends with
a slash. *)
Fixpoint dir (segs : list string) : string :=
  match segs with
  | [] => "/"
  | seg :: rest => "/" ++ seg ++ dir rest
  end.

(** A reference without delimiters is a path and nothing else. *)
Definition path_only (p : string) : URI :=
  {| scheme := None; authority := None; path := p; query := None; fragment := None |}.

End Rfc3986.

(** ** Sample collaborators and records

    Concrete worlds to run the resolvers in: the records of the documented
    scenarios, an HTTP collaborator that answers every request with one
    status, one whose requests all fail, and an RPC collaborator that serves
    a fixed list of records. *)

Module Sample.

Definition answers (code : Z) : list Event -> string -> Outcome Response :=
  fun _ _ => Returned {| status := code |}.

Definition unreachable : list Event -> string -> Outcome Response :=
  fun _ _ => Thrown "network timeout".

(** Reachable under one root only. *)
Definition only_under (root : string) : list Event -> string -> Outcome Response :=
  fun _ videoUrl =>
    if String.prefix root videoUrl then Returned {| status := 200 |}
    else Thrown "network timeout".

Definition serves (records : list RawJob) : list Event -> option string -> Outcome (list RawJob) :=
  fun _ _ => Returned records.

Definition raw1 : RawJob :=
  {| jobId := 1; streamId := "s1"; transcodingOptions := [];
     transcoder := "0xT"; broadcaster := "0xB" |}.

Definition option1 : JS.object :=
  transcodingOption (JS.str "h1") (JS.str "P1") (JS.str "1000k")
    (JS.number 30) (JS.str "1280x720").

Definition raw2 : RawJob :=
  {| jobId := 2; streamId := "s2"; transcodingOptions := [option1];
     transcoder := "0xT"; broadcaster := "0xB" |}.

Definition raw3 : RawJob :=
  {| jobId := 3; streamId := "s3"; transcodingOptions := [option1];
     transcoder := "0xT"; broadcaster := "0xB" |}.

(** Does the RPC collaborator know this job? *)
Definition lookup (records : list RawJob) : list Event -> Z -> Outcome RawJob :=
  fun _ id =>
    match List.find (fun r => (jobId r =? id)%Z) records with
    | Some r => Returned r
    | None => Thrown "no such job"
    end.

(** An RPC collaborator that is down. *)
Definition down : list Event -> option string -> Outcome (list RawJob) :=
  fun _ _ => Thrown "rpc unavailable".

End Sample.

(** ** The resolvers *)

Section Resolvers.

(** [Url.resolve] of the platform's [url] module, total on strings. *)
Variable Url_resolve : string -> string -> string.
(** [fetch]: how the promise of a request settles (a response, or a
    rejection by a timeout or transport error), given what was asked of the
    outside world before it.  Any one execution, with whatever timing, is
    such a function: two requests never share a history. *)
Variable fetch : list Event -> string -> Outcome Response.
(** [livepeer.rpc.getJob] and [livepeer.rpc.getJobs]. *)
Variable getJob : list Event -> Z -> Outcome RawJob.
Variable getJobs : list Event -> option string -> Outcome (list RawJob).

Local Open Scope async_scope.

(** [const DEAD_JOBS = new Set()] *)
Definition createResolvers (history : list Event) : State :=
  {| DEAD_JOBS := ∅; trace := history |}.

Definition DEAD_JOBS_has (id : Z) : Async bool :=
  fun st => (Fin (Returned (bool_decide (id ∈ DEAD_JOBS st))), st).

Definition DEAD_JOBS_add (id : Z) : Async unit :=
  fun st =>
    (Fin (Returned tt),
     {| DEAD_JOBS := {[ id ]} ∪ DEAD_JOBS st; trace := trace st |}).

(** [await fetch(videoUrl)]: the request goes out now, the call is
    suspended, and resuming it delivers the response or throws. *)
Definition await_fetch (videoUrl : string) : Async Response :=
  fun st =>
    let promise := fetch (trace st) videoUrl in
    (Await (fun st' => (Fin promise, st')),
     {| DEAD_JOBS := DEAD_JOBS st; trace := trace st ++ [Fetch videoUrl] |}).

Definition await_getJob (id : Z) : Async RawJob :=
  fun st =>
    let promise := getJob (trace st) id in
    (Await (fun st' => (Fin promise, st')),
     {| DEAD_JOBS := DEAD_JOBS st; trace := trace st ++ [GetJob id] |}).

Definition await_getJobs (filters : option string) : Async (list RawJob) :=
  fun st =>
    let promise := getJobs (trace st) filters in
    (Await (fun st' => (Fin promise, st')),
     {| DEAD_JOBS := DEAD_JOBS st; trace := trace st ++ [GetJobs filters] |}).

(** [VideoJob.fields.url] *)
Definition url (stream : string) (url : JS.value) (streamRootUrl : option string)
  : string :=
  match url with
  | JS.str u => u
  | _ => Url_resolve (or_empty streamRootUrl) (stream ++ ".m3u8")
  end.

(** [VideoJob.fields.live] *)
Definition live (job : Job.t) (streamRootUrl : option string) : Async JS.value :=
  if String.eqb "boolean" (JS.typeof (Job.live job)) then ret (Job.live job)
  else
    try_catch
      (known_dead <- DEAD_JOBS_has (Job.id job) ;;
       if known_dead : bool then ret (JS.boolean false)
       else
         let videoUrl := url (Job.stream job) (Job.url job) streamRootUrl in
         res <- await_fetch videoUrl ;;
         ret (JS.boolean (status res =? 200)%Z))
      (fun err =>
         DEAD_JOBS_add (Job.id job) ;;;
         ret (JS.boolean false)).

(** [Job.type], the [resolveType] of the interface. *)
Definition resolveType (x : Job.t) : string := Job.type x.

(** [Query.fields.job] *)
Definition job (id : Z) : Async Job.t :=
  raw <- await_getJob id ;;
  ret (transformJob raw).

(** The callback [Query.fields.jobs] maps over the normalized jobs. *)
Definition jobs_entry (streamRootUrl : option string) (job : Job.t) : Async Job.t :=
  let isTest := String.eqb (Job.type job) "TestJob" in
  live_ <- (if isTest then ret (JS.boolean false) else live job streamRootUrl) ;;
  url_ <- await_value (url (Job.stream job) (Job.url job) streamRootUrl) ;;
  ret {| Job.type := Job.type job;
         Job.id := Job.id job;
         Job.broadcaster := Job.broadcaster job;
         Job.profiles := Job.profiles job;
         Job.stream := Job.stream job;
         Job.transcoder := Job.transcoder job;
         Job.live := live_;
         Job.url := JS.str url_ |}.

(** [x => x.live === true] *)
Definition is_live (x : Job.t) : bool :=
  bool_decide (Job.live x = JS.boolean true).

(** [Query.fields.jobs] *)
Definition jobs (args : JobsArgs.t) : Async (list Job.t) :=
  let streamRootUrl := JobsArgs.streamRootUrl args in
  let filters := JobsArgs.broadcaster args in
  results <- await_getJobs filters ;;
  jobs <- Promise_all (map (jobs_entry streamRootUrl) (map transformJob results)) ;;
  ret (if JobsArgs.dead args then jobs else List.filter is_live jobs).


(** *** A resolver instance at work *)

(** The calls the schema can make into the resolvers. *)
Inductive Call : Type :=
| Call_job (id : Z)
| Call_jobs (args : JobsArgs.t)
| Call_live (job : Job.t) (streamRootUrl : option string)
| Call_url (stream : string) (url : JS.value) (streamRootUrl : option string)
| Call_type (x : Job.t).

Inductive Reply : Type :=
| ReplyJob (j : Job.t)
| ReplyJobs (l : list Job.t)
| ReplyValue (v : JS.value)
| ReplyString (s : string).

Definition invoke (c : Call) : Async Reply :=
  match c with
  | Call_job id => j <- job id ;; ret (ReplyJob j)
  | Call_jobs args => l <- jobs args ;; ret (ReplyJobs l)
  | Call_live j root => v <- live j root ;; ret (ReplyValue v)
  | Call_url stream u root => ret (ReplyString (url stream u root))
  | Call_type x => ret (ReplyString (resolveType x))
  end.

(** The shared state and the calls in flight.  A step starts a new call,
    which runs up to its first suspension, or resumes one suspended call
    up to its next suspension; calls interleave freely. *)
Definition Config : Type := State * list (Co Reply).

Inductive step : Config -> Config -> Prop :=
| step_invoke c st pool co st' :
    invoke c st = (co, st') ->
    step (st, pool) (st', (pool ++ [co])%list)
| step_resume i k st pool co st' :
    pool !! i = Some (Await k) ->
    k st = (co, st') ->
    step (st, pool) (st', <[i := co]> pool).

(** A resolver fresh from [createResolvers], with no call made yet. *)
Definition fresh (history : list Event) : Config :=
  (createResolvers history, []).

(** Every resumption of a call leaves the ids of [DEAD_JOBS] in place. *)
Fixpoint grows {A} (c : Co A) : Prop :=
  match c with
  | Fin _ => True
  | Await k =>
      forall st, let (c', st') := k st in
                 DEAD_JOBS st ⊆ DEAD_JOBS st' /\ grows c'
  end.

Definition grows_async {A} (m : Async A) : Prop :=
  forall st, let (c, st') := m st in
             DEAD_JOBS st ⊆ DEAD_JOBS st' /\ grows c.

(** The request a liveness check sends for a job. *)
Definition videoUrl_of (job : Job.t) (streamRootUrl : option string) : string :=
  url (Job.stream job) (Job.url job) streamRootUrl.

(** The fields normalization sets are those of [n]; [live] and [url] are
    free. *)
Definition decorates (d n : Job.t) : Prop :=
  Job.type d = Job.type n /\ Job.id d = Job.id n /\
  Job.broadcaster d = Job.broadcaster n /\ Job.profiles d = Job.profiles n /\
  Job.stream d = Job.stream n /\ Job.transcoder d = Job.transcoder n.

(** A job whose liveness check goes to the network when the batch of
[Query.jobs] starts it against the set [dead]. *)
Definition sends (dead : gset Z) (j : Job.t) : Prop :=
  Job.type j <> "TestJob" /\
  JS.typeof (Job.live j) <> "boolean" /\
  Job.id j ∉ dead.

#[local] Instance sends_dec dead j : Decision (sends dead j).
Proof. unfold sends. apply _. Defined.

(** The requests a batch sends for the jobs [js], in order. *)
Definition probes (root : option string) (dead : gset Z) (js : list Job.t)
  : list Event :=
  map (fun j => Fetch (videoUrl_of j root)) (filter (sends dead) js).

(** A suspended call that, whenever it is resumed, settles with the value
[a], adds the ids [add] to [DEAD_JOBS] and asks nothing of the outside
world. *)
Definition settles_with {A} (c : Co A) (a : A) (add : gset Z) : Prop :=
  forall st, exists st',
    run_co c st = (Returned a, st') /\
    DEAD_JOBS st' = add ∪ DEAD_JOBS st /\
    trace st' = trace st.

Definition settles {A} (c : Co A) : Prop :=
  exists a add, settles_with c a add.

(** What one entry of the batch makes of the normalized job [j]. *)
Definition entry_of (root : option string) (d j : Job.t) : Prop :=
  decorates d j /\
  Job.url d = JS.str (videoUrl_of j root) /\
  (Job.type j = "TestJob" -> Job.live d = JS.boolean false).

(** How the entry of the batch for the job [j] comes out, by cases: [d] is
the decorated job and [add] what the entry adds to [DEAD_JOBS], when the
entry is started against the set [dead] with [tr] asked so far. *)
Definition entry_detail (root : option string) (dead : gset Z) (tr : list Event)
    (j d : Job.t) (add : gset Z) : Prop :=
  (exists b, Job.live d = JS.boolean b) /\
  (~ sends dead j -> add = ∅) /\
  (Job.type j <> "TestJob" -> JS.typeof (Job.live j) = "boolean" ->
   Job.live d = Job.live j) /\
  (Job.type j <> "TestJob" -> JS.typeof (Job.live j) <> "boolean" ->
   Job.id j ∈ dead -> Job.live d = JS.boolean false) /\
  (sends dead j ->
   match fetch tr (videoUrl_of j root) with
   | Returned res =>
       Job.live d = JS.boolean (status res =? 200)%Z /\ add = ∅
   | Thrown _ =>
       Job.live d = JS.boolean false /\ add = {[ Job.id j ]}
   end).

(** What has been asked of the outside world when the batch of [Query.jobs]
reaches its [i]-th job: the RPC call and the requests of the jobs before. *)
Definition asked_before (root : option string) (st : State)
    (bc : option string) (js : list Job.t) (i : nat) : list Event :=
  (trace st ++ GetJobs bc :: probes root (DEAD_JOBS st) (take i js))%list.

(** Every resumption of a call leaves [DEAD_JOBS] exactly as it is. *)
Fixpoint keeps {A} (c : Co A) : Prop :=
  match c with
  | Fin _ => True
  | Await k =>
      forall st, let (c', st') := k st in
                 DEAD_JOBS st' = DEAD_JOBS st /\ keeps c'
  end.

Definition keeps_async {A} (m : Async A) : Prop :=
  forall st, let (c, st') := m st in
             DEAD_JOBS st' = DEAD_JOBS st /\ keeps c.

(** ** Facts *)

(** *** Induction over running calls *)

Lemma Co_induction {A} (P : Co A -> Prop) :
  (forall o, P (Fin o)) ->
  (forall k, (forall st, P (k st).1) -> P (Await k)) ->
  forall c, P c.
Proof.
  intros Hfin Hawait. fix IH 1. intros [o|k].
  - apply Hfin.
  - apply Hawait. intros st. apply IH.
Qed.

(** *** How a liveness check runs *)

Lemma live_precomputed job root st :
  JS.typeof (Job.live job) = "boolean" ->
  live job root st = (Fin (Returned (Job.live job)), st).
Proof. intros H. unfold live. rewrite H. reflexivity. Qed.

Lemma live_cached job root st :
  JS.typeof (Job.live job) <> "boolean" ->
  Job.id job ∈ DEAD_JOBS st ->
  live job root st = (Fin (Returned (JS.boolean false)), st).
Proof.
  intros Hty Hin. unfold live.
  destruct (String.eqb_spec "boolean" (JS.typeof (Job.live job))) as [E|_];
    [congruence|].
  unfold try_catch, bind, DEAD_JOBS_has. simpl.
  rewrite bool_decide_eq_true_2 by assumption. reflexivity.
Qed.

Lemma live_probe job root st :
  JS.typeof (Job.live job) <> "boolean" ->
  Job.id job ∉ DEAD_JOBS st ->
  run (live job root) st =
  let sent := {| DEAD_JOBS := DEAD_JOBS st;
                 trace := (trace st ++ [Fetch (videoUrl_of job root)])%list |} in
  match fetch (trace st) (videoUrl_of job root) with
  | Returned res => (Returned (JS.boolean (status res =? 200)%Z), sent)
  | Thrown _ =>
      (Returned (JS.boolean false),
       {| DEAD_JOBS := {[ Job.id job ]} ∪ DEAD_JOBS st;
          trace := (trace st ++ [Fetch (videoUrl_of job root)])%list |})
  end.
Proof.
  intros Hty Hin. unfold run, live.
  destruct (String.eqb_spec "boolean" (JS.typeof (Job.live job))) as [E|_];
    [congruence|].
  unfold try_catch, bind, DEAD_JOBS_has. simpl.
  rewrite bool_decide_eq_false_2 by assumption. simpl.
  unfold videoUrl_of.
  destruct (fetch (trace st) _); reflexivity.
Qed.

(** *** No resumption removes an id from [DEAD_JOBS] *)

Lemma run_co_grows {A} (c : Co A) :
  grows c -> forall st, DEAD_JOBS st ⊆ DEAD_JOBS (run_co c st).2.
Proof.
  induction c as [o|k IH] using Co_induction; simpl; intros Hg st.
  - reflexivity.
  - specialize (Hg st). specialize (IH st).
    destruct (k st) as [c' st']. destruct Hg as [Hsub Hg]. simpl in IH.
    etrans; [exact Hsub|]. apply IH, Hg.
Qed.

Lemma bind_co_grows {A B} (c : Co A) (f : A -> Async B) :
  grows c -> (forall a, grows_async (f a)) ->
  forall st, let (c', st') := bind_co c f st in
             DEAD_JOBS st ⊆ DEAD_JOBS st' /\ grows c'.
Proof.
  intros Hg Hf. induction c as [[a|e]|k IH] using Co_induction; intros st; simpl.
  - apply Hf.
  - split; [reflexivity|exact I].
  - split; [reflexivity|]. intros st1.
    specialize (Hg st1). specialize (IH st1).
    destruct (k st1) as [c1 st2]. destruct Hg as [Hsub Hg].
    specialize (IH Hg st2). simpl in IH.
    destruct (bind_co c1 f st2) as [c2 st3]. destruct IH as [Hsub' Hg'].
    split; [etrans; eassumption|assumption].
Qed.

Lemma try_co_grows {A} (c : Co A) (h : Error -> Async A) :
  grows c -> (forall e, grows_async (h e)) ->
  forall st, let (c', st') := try_co c h st in
             DEAD_JOBS st ⊆ DEAD_JOBS st' /\ grows c'.
Proof.
  intros Hg Hh. induction c as [[a|e]|k IH] using Co_induction; intros st; simpl.
  - split; [reflexivity|exact I].
  - apply Hh.
  - split; [reflexivity|]. intros st1.
    specialize (Hg st1). specialize (IH st1).
    destruct (k st1) as [c1 st2]. destruct Hg as [Hsub Hg].
    specialize (IH Hg st2). simpl in IH.
    destruct (try_co c1 h st2) as [c2 st3]. destruct IH as [Hsub' Hg'].
    split; [etrans; eassumption|assumption].
Qed.

Lemma grows_bind {A B} (m : Async A) (f : A -> Async B) :
  grows_async m -> (forall a, grows_async (f a)) -> grows_async (bind m f).
Proof.
  intros Hm Hf st. unfold bind. specialize (Hm st).
  destruct (m st) as [c st1]. destruct Hm as [Hsub Hg].
  pose proof (bind_co_grows c f Hg Hf st1) as H.
  destruct (bind_co c f st1) as [c2 st2]. destruct H as [Hsub' Hg'].
  split; [etrans; eassumption|assumption].
Qed.

Lemma grows_try_catch {A} (m : Async A) (h : Error -> Async A) :
  grows_async m -> (forall e, grows_async (h e)) -> grows_async (try_catch m h).
Proof.
  intros Hm Hh st. unfold try_catch. specialize (Hm st).
  destruct (m st) as [c st1]. destruct Hm as [Hsub Hg].
  pose proof (try_co_grows c h Hg Hh st1) as H.
  destruct (try_co c h st1) as [c2 st2]. destruct H as [Hsub' Hg'].
  split; [etrans; eassumption|assumption].
Qed.

Lemma grows_ret {A} (a : A) : grows_async (ret a).
Proof. intros st. simpl. split; [reflexivity|exact I]. Qed.

Lemma grows_await_value {A} (a : A) : grows_async (await_value a).
Proof.
  intros st. simpl. split; [reflexivity|]. intros st1.
  split; [reflexivity|exact I].
Qed.

Lemma grows_DEAD_JOBS_has id : grows_async (DEAD_JOBS_has id).
Proof. intros st. simpl. split; [reflexivity|exact I]. Qed.

Lemma grows_DEAD_JOBS_add id : grows_async (DEAD_JOBS_add id).
Proof. intros st. simpl. split; [apply union_subseteq_r|exact I]. Qed.

Lemma grows_await_fetch u : grows_async (await_fetch u).
Proof.
  intros st. simpl. split; [reflexivity|]. intros st1.
  split; [reflexivity|exact I].
Qed.

Lemma grows_await_getJob id : grows_async (await_getJob id).
Proof.
  intros st. simpl. split; [reflexivity|]. intros st1.
  split; [reflexivity|exact I].
Qed.

Lemma grows_await_getJobs filters : grows_async (await_getJobs filters).
Proof.
  intros st. simpl. split; [reflexivity|]. intros st1.
  split; [reflexivity|exact I].
Qed.

Create HintDb grows discriminated.
#[local] Hint Resolve grows_ret grows_await_value grows_DEAD_JOBS_has
  grows_DEAD_JOBS_add grows_await_fetch grows_await_getJob
  grows_await_getJobs : grows.

Ltac grows_steps :=
  repeat first
    [ apply grows_bind; [|intros ?]
    | apply grows_try_catch; [|intros ?]
    | solve [auto with grows] ].

Lemma grows_live job root : grows_async (live job root).
Proof.
  unfold live. destruct (String.eqb _ _); [apply grows_ret|].
  apply grows_try_catch; [|intros e; grows_steps].
  apply grows_bind; [apply grows_DEAD_JOBS_has|].
  intros [|]; grows_steps.
Qed.

Lemma grows_job id : grows_async (job id).
Proof. unfold job. grows_steps. Qed.

Lemma grows_jobs_entry root j : grows_async (jobs_entry root j).
Proof.
  unfold jobs_entry. apply grows_bind.
  - destruct (String.eqb _ _); [apply grows_ret|apply grows_live].
  - intros v. grows_steps.
Qed.

Lemma start_all_grows {A} (ms : list (Async A)) :
  Forall grows_async ms ->
  forall st, let (cs, st') := start_all ms st in
             DEAD_JOBS st ⊆ DEAD_JOBS st' /\ Forall grows cs.
Proof.
  induction 1 as [|m ms Hm _ IH]; intros st; simpl.
  - split; [reflexivity|constructor].
  - specialize (Hm st). destruct (m st) as [c st1]. destruct Hm as [Hsub Hg].
    specialize (IH st1). destruct (start_all ms st1) as [cs st2].
    destruct IH as [Hsub' Hgs].
    split; [etrans; eassumption|constructor; assumption].
Qed.

Lemma settle_all_grows {A} (cs : list (Co A)) :
  Forall grows cs -> forall st, DEAD_JOBS st ⊆ DEAD_JOBS (settle_all cs st).2.
Proof.
  induction 1 as [|c cs Hc _ IH]; intros st; simpl.
  - reflexivity.
  - pose proof (run_co_grows c Hc st) as H1.
    destruct (run_co c st) as [o st1]. simpl in H1.
    specialize (IH st1). destruct (settle_all cs st1) as [os st2]. simpl in *.
    etrans; eassumption.
Qed.

Lemma grows_Promise_all {A} (ms : list (Async A)) :
  Forall grows_async ms -> grows_async (Promise_all ms).
Proof.
  intros Hms st. unfold Promise_all.
  pose proof (start_all_grows ms Hms st) as H.
  destruct (start_all ms st) as [cs st1]. destruct H as [Hsub Hcs].
  split; [assumption|]. intros st2.
  pose proof (settle_all_grows cs Hcs st2) as H.
  destruct (settle_all cs st2) as [o st3]. simpl in H.
  split; [assumption|exact I].
Qed.

Lemma grows_jobs args : grows_async (jobs args).
Proof.
  unfold jobs. apply grows_bind; [apply grows_await_getJobs|].
  intros results. apply grows_bind; [|intros l; apply grows_ret].
  apply grows_Promise_all. apply Forall_forall. intros m Hm.
  apply list_elem_of_fmap in Hm as [j [-> _]]. apply grows_jobs_entry.
Qed.

Lemma grows_invoke c : grows_async (invoke c).
Proof.
  destruct c; simpl.
  - apply grows_bind; [apply grows_job|intros ?; apply grows_ret].
  - apply grows_bind; [apply grows_jobs|intros ?; apply grows_ret].
  - apply grows_bind; [apply grows_live|intros ?; apply grows_ret].
  - apply grows_ret.
  - apply grows_ret.
Qed.

Lemma step_grows cfg cfg' :
  step cfg cfg' -> Forall grows cfg.2 ->
  DEAD_JOBS cfg.1 ⊆ DEAD_JOBS cfg'.1 /\ Forall grows cfg'.2.
Proof.
  intros [c st pool co st' E | i k st pool co st' Hi E] Hpool; simpl in *.
  - pose proof (grows_invoke c st) as H. rewrite E in H. destruct H as [Hsub Hg].
    split; [assumption|]. apply Forall_app. split; [assumption|].
    constructor; [assumption|constructor].
  - pose proof (Forall_lookup_1 _ _ _ _ Hpool Hi st) as H. rewrite E in H.
    destruct H as [Hsub Hg]. split; [assumption|].
    apply Forall_insert; assumption.
Qed.

Lemma steps_grow cfg cfg' :
  rtc step cfg cfg' -> Forall grows cfg.2 ->
  DEAD_JOBS cfg.1 ⊆ DEAD_JOBS cfg'.1 /\ Forall grows cfg'.2.
Proof.
  induction 1 as [cfg|cfg cfg1 cfg2 Hstep _ IH]; intros Hpool.
  - split; [reflexivity|assumption].
  - destruct (step_grows _ _ Hstep Hpool) as [Hsub Hpool1].
    destruct (IH Hpool1) as [Hsub' Hpool2].
    split; [etrans; eassumption|assumption].
Qed.

Lemma run_grows {A} (m : Async A) st :
  grows_async m -> DEAD_JOBS st ⊆ DEAD_JOBS (run m st).2.
Proof.
  intros Hm. unfold run. specialize (Hm st).
  destruct (m st) as [c st1]. destruct Hm as [Hsub Hg].
  etrans; [exact Hsub|]. apply run_co_grows, Hg.
Qed.

Lemma reachable_pool_grows history cfg :
  rtc step (fresh history) cfg -> Forall grows cfg.2.
Proof. intros H. apply (steps_grow _ _ H). constructor. Qed.

(** *** The liveness resolver *)

(** C2, as amended: for a job without a precomputed boolean [live] whose id
    is not in [DEAD_JOBS], a probe that fails by a timeout or transport
    error (the request's promise rejects) makes the liveness resolver
    return [false], insert the job id into [DEAD_JOBS] and discard the
    error: the call returns, it does not throw.  A response with a status
    other than 200 also makes it return [false] without an error, and
    leaves [DEAD_JOBS] as it was. *)
Theorem live_probe_failure job root st :
  JS.typeof (Job.live job) <> "boolean" ->
  Job.id job ∉ DEAD_JOBS st ->
  (forall e,
      fetch (trace st) (videoUrl_of job root) = Thrown e ->
      exists st',
        run (live job root) st = (Returned (JS.boolean false), st') /\
        Job.id job ∈ DEAD_JOBS st' /\
        DEAD_JOBS st' = {[ Job.id job ]} ∪ DEAD_JOBS st) /\
  (forall res,
      fetch (trace st) (videoUrl_of job root) = Returned res ->
      status res <> 200%Z ->
      exists st',
        run (live job root) st = (Returned (JS.boolean false), st') /\
        DEAD_JOBS st' = DEAD_JOBS st).
Proof.
  intros Hty Hin. split.
  - intros e He. rewrite (live_probe job root st Hty Hin). simpl. rewrite He.
    eexists. split; [reflexivity|]. simpl.
    split; [apply elem_of_union_l, elem_of_singleton|]; reflexivity.
  - intros res Hres Hne. rewrite (live_probe job root st Hty Hin). simpl.
    rewrite Hres. apply Z.eqb_neq in Hne. rewrite Hne.
    eexists. split; reflexivity.
Qed.

(** C10: for a job without a precomputed boolean [live] whose id is not in
    [DEAD_JOBS], a probe that completes with a status other than 200 makes
    the liveness resolver return [false] and leaves [DEAD_JOBS] unchanged
    (the id is not inserted); a liveness check for the same job on the
    resulting cache, under any root, sends a request again. *)
Theorem live_non200_not_cached job root st res :
  JS.typeof (Job.live job) <> "boolean" ->
  Job.id job ∉ DEAD_JOBS st ->
  fetch (trace st) (videoUrl_of job root) = Returned res ->
  status res <> 200%Z ->
  exists st',
    run (live job root) st = (Returned (JS.boolean false), st') /\
    DEAD_JOBS st' = DEAD_JOBS st /\
    (Job.id job ∉ DEAD_JOBS st') /\
    trace st' = (trace st ++ [Fetch (videoUrl_of job root)])%list /\
    forall later root',
      DEAD_JOBS later = DEAD_JOBS st' ->
      trace (run (live job root') later).2 =
      (trace later ++ [Fetch (videoUrl_of job root')])%list.
Proof.
  intros Hty Hin Hres Hne.
  rewrite (live_probe job root st Hty Hin). simpl. rewrite Hres.
  apply Z.eqb_neq in Hne. rewrite Hne.
  eexists. split; [reflexivity|]. simpl.
  split; [reflexivity|]. split; [assumption|]. split; [reflexivity|].
  intros later root' Hsame.
  rewrite (live_probe job root' later Hty) by (rewrite Hsame; assumption).
  simpl. destruct (fetch (trace later) _); reflexivity.
Qed.

(** C3, as amended: once a job id is in [DEAD_JOBS], at every later point
    of the resolver's life a liveness check for a job with that id sends no
    request and changes nothing; it returns [false] when the job carries no
    precomputed boolean [live], and the precomputed value when it carries
    one. *)
Theorem live_of_dead_job history cfg cfg' job root :
  rtc step (fresh history) cfg ->
  Job.id job ∈ DEAD_JOBS cfg.1 ->
  rtc step cfg cfg' ->
  run (live job root) cfg'.1 =
  (Returned (if String.eqb (JS.typeof (Job.live job)) "boolean"
             then Job.live job else JS.boolean false),
   cfg'.1).
Proof.
  intros Hreach Hin Hlater.
  pose proof (reachable_pool_grows _ _ Hreach) as Hpool.
  destruct (steps_grow _ _ Hlater Hpool) as [Hsub _].
  unfold run.
  destruct (String.eqb_spec (JS.typeof (Job.live job)) "boolean") as [E|E].
  - rewrite live_precomputed by assumption. reflexivity.
  - rewrite live_cached; [reflexivity|assumption|]. apply Hsub, Hin.
Qed.

(** *** The Dead-Job Cache *)

(** C7: [DEAD_JOBS] is created empty by [createResolvers]; along any
    execution of a resolver instance, whatever calls are made and however
    they interleave, every id in the set at one point is in it at every
    later point; and every call run to completion leaves the set as it was
    or larger. *)
Theorem DEAD_JOBS_monotonic history cfg cfg' :
  rtc step (fresh history) cfg ->
  rtc step cfg cfg' ->
  DEAD_JOBS (createResolvers history) = ∅ /\
  DEAD_JOBS cfg.1 ⊆ DEAD_JOBS cfg'.1 /\
  (forall c, DEAD_JOBS cfg'.1 ⊆ DEAD_JOBS (run (invoke c) cfg'.1).2).
Proof.
  intros Hreach Hlater. split; [reflexivity|]. split.
  - apply (steps_grow _ _ Hlater), (reachable_pool_grows _ _ Hreach).
  - intros c. apply run_grows, grows_invoke.
Qed.

(** *** How a batch runs *)

Lemma State_eq (a b : State) :
  DEAD_JOBS a = DEAD_JOBS b -> trace a = trace b -> a = b.
Proof. destruct a, b. simpl. congruence. Qed.

Lemma jobs_run args st :
  run (jobs args) st =
  let st1 := {| DEAD_JOBS := DEAD_JOBS st;
                trace := (trace st ++ [GetJobs (JobsArgs.broadcaster args)])%list |} in
  match getJobs (trace st) (JobsArgs.broadcaster args) with
  | Thrown e => (Thrown e, st1)
  | Returned results =>
      let (cs, st2) :=
        start_all (map (jobs_entry (JobsArgs.streamRootUrl args))
                       (map transformJob results)) st1 in
      let (o, st3) := settle_all cs st2 in
      (match o with
       | Returned l =>
           Returned (if JobsArgs.dead args then l else List.filter is_live l)
       | Thrown e => Thrown e
       end, st3)
  end.
Proof.
  unfold run, jobs, bind, await_getJobs, Promise_all. simpl.
  destruct (getJobs (trace st) _) as [results|e]; simpl; [|reflexivity].
  destruct (start_all _ _) as [cs st2]. simpl.
  destruct (settle_all cs st2) as [[l|e] st3]; reflexivity.
Qed.

(** The cases in which an entry sends nothing: it is suspended at
[await url(...)] only, and settles with the value already at hand. *)
Ltac quiet_entry st :=
  eexists _, st, _, ∅; split; [reflexivity|];
  split; [reflexivity|]; split; [simpl; by rewrite app_nil_r|];
  split; [intros st2; exists st2; simpl; split; [reflexivity|];
          split; [by rewrite (left_id_L ∅ (∪))|reflexivity]|];
  split; [by repeat split|]; split; [reflexivity|];
  split; [done|apply empty_subseteq].

(** One entry of the batch: what starting it does, and how it settles. *)
Lemma jobs_entry_spec root j st :
  exists c st' d add,
    jobs_entry root j st = (c, st') /\
    DEAD_JOBS st' = DEAD_JOBS st /\
    trace st' = (trace st ++ probes root (DEAD_JOBS st) [j])%list /\
    settles_with c d add /\
    decorates d j /\
    Job.url d = JS.str (videoUrl_of j root) /\
    (Job.type j = "TestJob" -> Job.live d = JS.boolean false /\ add = ∅) /\
    add ⊆ {[ Job.id j ]}.
Proof.
  unfold probes, jobs_entry.
  destruct (String.eqb_spec (Job.type j) "TestJob") as [Et|Et].
  { (* a test job: no liveness check at all *)
    rewrite filter_cons_False, filter_nil by (unfold sends; tauto).
    quiet_entry st. }
  unfold live.
  destruct (String.eqb_spec "boolean" (JS.typeof (Job.live j))) as [Eb|Eb].
  { (* a precomputed boolean *)
    rewrite filter_cons_False, filter_nil by (unfold sends; intuition congruence).
    quiet_entry st. }
  unfold try_catch, bind, DEAD_JOBS_has. simpl.
  destruct (decide (Job.id j ∈ DEAD_JOBS st)) as [Hin|Hin].
  { (* known dead *)
    rewrite bool_decide_eq_true_2 by assumption. simpl.
    rewrite filter_cons_False, filter_nil by (unfold sends; tauto).
    quiet_entry st. }
  (* a request goes out *)
  rewrite bool_decide_eq_false_2 by assumption. simpl.
  rewrite filter_cons_True, filter_nil by (unfold sends; auto).
  fold (videoUrl_of j root).
  destruct (fetch (trace st) (videoUrl_of j root)) as [res|e] eqn:Ef.
  - eexists _, _, _, ∅. split; [reflexivity|]. simpl.
    split; [reflexivity|]. split; [reflexivity|].
    split.
    { intros st2. exists st2. simpl. split; [reflexivity|].
      split; [by rewrite (left_id_L ∅ (∪))|reflexivity]. }
    split; [by repeat split|]. split; [reflexivity|].
    split; [done|apply empty_subseteq].
  - eexists _, _, _, {[ Job.id j ]}. split; [reflexivity|]. simpl.
    split; [reflexivity|]. split; [reflexivity|].
    split.
    { intros st2. eexists. simpl. split; [reflexivity|]. simpl. done. }
    split; [by repeat split|]. split; [reflexivity|]. split; [done|reflexivity].
Qed.

Lemma probes_cons root dead j js :
  probes root dead (j :: js) = (probes root dead [j] ++ probes root dead js)%list.
Proof.
  unfold probes. change (j :: js) with ([j] ++ js)%list.
  rewrite filter_app. apply map_app.
Qed.

(** The first half of a batch: every entry is started, in order, against
the same [DEAD_JOBS]; the requests go out in the order of the jobs. *)
Lemma start_all_entries root js :
  forall st, exists cs st' ds adds,
    start_all (map (jobs_entry root) js) st = (cs, st') /\
    DEAD_JOBS st' = DEAD_JOBS st /\
    trace st' = (trace st ++ probes root (DEAD_JOBS st) js)%list /\
    Forall3 settles_with cs ds adds /\
    Forall2 (entry_of root) ds js.
Proof.
  induction js as [|j js IH]; intros st; simpl.
  - exists [], st, [], []. repeat split; try constructor.
    unfold probes. simpl. by rewrite app_nil_r.
  - destruct (jobs_entry_spec root j st)
      as (c & st1 & d & add & E & Hd & Ht & Hc & Hdec & Hurl & Htest & _).
    rewrite E.
    destruct (IH st1) as (cs & st2 & ds & adds & E' & Hd' & Ht' & Hcs & Hds).
    rewrite E'. exists (c :: cs), st2, (d :: ds), (add :: adds).
    split; [reflexivity|]. split; [congruence|]. split.
    { rewrite Ht', Ht, Hd, (probes_cons root _ j js). by rewrite <- app_assoc. }
    split; [by constructor|].
    constructor; [|assumption]. split; [assumption|]. split; [assumption|].
    intros Et. apply Htest, Et.
Qed.

(** The second half: the entries settle; no request is sent any more. *)
Lemma settle_all_spec {A} (cs : list (Co A)) ds adds :
  Forall3 settles_with cs ds adds ->
  forall st, exists st',
    settle_all cs st = (Returned ds, st') /\
    DEAD_JOBS st' = ⋃ adds ∪ DEAD_JOBS st /\
    trace st' = trace st.
Proof.
  induction 1 as [|c d add cs ds adds Hc _ IH]; intros st; simpl.
  - exists st. split; [reflexivity|]. split; [|reflexivity].
    by rewrite (left_id_L ∅ (∪)).
  - destruct (Hc st) as (st1 & E1 & Hd1 & Ht1). rewrite E1.
    destruct (IH st1) as (st2 & E2 & Hd2 & Ht2). rewrite E2.
    exists st2. split; [reflexivity|]. split; [|congruence].
    rewrite Hd2, Hd1.
    by rewrite (assoc_L (∪)), (comm_L (∪) (⋃ adds) add).
Qed.

Lemma List_filter_bool_decide {A} (P : A -> Prop) `{!forall x, Decision (P x)}
    (l : list A) :
  List.filter (fun x => bool_decide (P x)) l = filter P l.
Proof.
  induction l as [|x l IH]; simpl; [reflexivity|].
  rewrite filter_cons. destruct (decide (P x)) as [HP|HP].
  - rewrite bool_decide_eq_true_2 by assumption. by rewrite IH.
  - rewrite bool_decide_eq_false_2 by assumption. apply IH.
Qed.

(** A whole batch, when the RPC collaborator answers. *)
Lemma jobs_batch st root bc results :
  getJobs (trace st) bc = Returned results ->
  exists all adds st',
    (forall dead,
        run (jobs {| JobsArgs.dead := dead; JobsArgs.streamRootUrl := root;
                     JobsArgs.broadcaster := bc |}) st =
        (Returned (if dead then all
                   else filter (fun x => Job.live x = JS.boolean true) all),
         st')) /\
    Forall2 (entry_of root) all (map transformJob results) /\
    DEAD_JOBS st' = ⋃ adds ∪ DEAD_JOBS st /\
    trace st' =
      (trace st ++
       GetJobs bc :: probes root (DEAD_JOBS st) (map transformJob results))%list.
Proof.
  intros Hrpc.
  set (st1 := {| DEAD_JOBS := DEAD_JOBS st; trace := (trace st ++ [GetJobs bc])%list |}).
  destruct (start_all_entries root (map transformJob results) st1)
    as (cs & st2 & ds & adds & E & Hd & Ht & Hcs & Hds).
  destruct (settle_all_spec cs ds adds Hcs st2) as (st3 & E3 & Hd3 & Ht3).
  exists ds, adds, st3. split; [|split; [assumption|split]].
  - intros dead. rewrite jobs_run. simpl. rewrite Hrpc. fold st1.
    rewrite E, E3. destruct dead; [reflexivity|].
    unfold is_live. by rewrite List_filter_bool_decide.
  - rewrite Hd3, Hd. reflexivity.
  - rewrite Ht3, Ht. simpl. by rewrite <- app_assoc.
Qed.

Lemma probes_normalized root dead results :
  probes root dead (map transformJob results) =
  map (fun j => Fetch (videoUrl_of j root))
      (filter (fun j => Job.type j <> "TestJob" /\ Job.id j ∉ dead)
              (map transformJob results)).
Proof.
  unfold probes. f_equal.
  induction results as [|raw results IH]; [reflexivity|].
  simpl. rewrite !filter_cons, IH.
  destruct (decide (sends dead (transformJob raw))) as [Hs|Hs];
    destruct (decide (Job.type (transformJob raw) <> "TestJob" /\
                      Job.id (transformJob raw) ∉ dead)) as [Hp|Hp];
    try reflexivity; exfalso; unfold sends in *; simpl in *.
  - apply Hp. tauto.
  - apply Hs. intuition discriminate.
Qed.

(** The order in which the entries of a batch settle does not matter. *)
Lemma settle_all_any_order {A} (cs cs' : list (Co A)) :
  cs ≡ₚ cs' -> Forall settles cs ->
  forall st, (settle_all cs st).2 = (settle_all cs' st).2.
Proof.
  induction 1 as [|c cs cs' _ IH|c1 c2 cs|cs cs' cs'' H1 IH1 H2 IH2];
    intros Hall st.
  - reflexivity.
  - simpl. destruct (run_co c st) as [o st1].
    specialize (IH (Forall_inv_tail Hall) st1).
    destruct (settle_all cs st1), (settle_all cs' st1). exact IH.
  - pose proof (Forall_inv Hall) as (a2 & add2 & H2).
    pose proof (Forall_inv (Forall_inv_tail Hall)) as (a1 & add1 & H1).
    simpl.
    destruct (H2 st) as (s2 & E2 & D2 & T2). rewrite E2.
    destruct (H1 s2) as (s21 & E21 & D21 & T21). rewrite E21.
    destruct (H1 st) as (s1 & E1 & D1 & T1). rewrite E1.
    destruct (H2 s1) as (s12 & E12 & D12 & T12). rewrite E12.
    assert (s21 = s12) as ->.
    { apply State_eq; [|congruence].
      rewrite D21, D2, D12, D1.
      by rewrite !(assoc_L (∪)), (comm_L (∪) add1 add2). }
    destruct (settle_all cs s12). reflexivity.
  - rewrite IH1 by assumption. apply IH2. by rewrite <- H1.
Qed.

Lemma started_entries_settle root js st :
  Forall settles (start_all (map (jobs_entry root) js) st).1.
Proof.
  destruct (start_all_entries root js st) as (cs & st' & ds & adds & E & _ & _ & H & _).
  rewrite E. simpl. clear E.
  induction H as [|c d add cs ds adds Hc _ IH]; constructor; [|assumption].
  by exists d, add.
Qed.

(** Whatever order the entries of a started batch settle in, the state
they leave is the same. *)
Lemma batch_order_irrelevant root js st cs' :
  (start_all (map (jobs_entry root) js) st).1 ≡ₚ cs' ->
  forall st2,
    (settle_all (start_all (map (jobs_entry root) js) st).1 st2).2 =
    (settle_all cs' st2).2.
Proof.
  intros Hperm st2. apply settle_all_any_order; [exact Hperm|].
  apply started_entries_settle.
Qed.

(** A failure of the RPC collaborator is the failure of the query. *)
Lemma jobs_rpc_failure args st e :
  getJobs (trace st) (JobsArgs.broadcaster args) = Thrown e ->
  (run (jobs args) st).1 = Thrown e /\
  DEAD_JOBS (run (jobs args) st).2 = DEAD_JOBS st.
Proof. intros H. rewrite jobs_run. simpl. rewrite H. by split. Qed.

(** [job] normalizes the record and derives neither [live] nor [url]. *)
Lemma job_run id st :
  run (job id) st =
  (match getJob (trace st) id with
   | Returned raw => Returned (transformJob raw)
   | Thrown e => Thrown e
   end,
   {| DEAD_JOBS := DEAD_JOBS st; trace := (trace st ++ [GetJob id])%list |}).
Proof.
  unfold run, job, bind, await_getJob. simpl.
  destruct (getJob (trace st) id); reflexivity.
Qed.

(** *** The batch query *)

(** C6: in a batch, a job normalized as a [TestJob] has [live = false] in
the assembled result, and no request is sent for it: the requests of the
batch are exactly those of the jobs that are not test jobs and whose id is
not in [DEAD_JOBS] when the batch starts, one each, in order. *)
Theorem jobs_test_job_not_probed st root bc results :
  getJobs (trace st) bc = Returned results ->
  exists all st',
    (forall dead,
        run (jobs {| JobsArgs.dead := dead; JobsArgs.streamRootUrl := root;
                     JobsArgs.broadcaster := bc |}) st =
        (Returned (if dead then all
                   else filter (fun x => Job.live x = JS.boolean true) all),
         st')) /\
    Forall2 (fun d j => decorates d j /\
                        (Job.type j = "TestJob" -> Job.live d = JS.boolean false))
            all (map transformJob results) /\
    trace st' =
      (trace st ++
       GetJobs bc ::
       map (fun j => Fetch (videoUrl_of j root))
           (filter (fun j => Job.type j <> "TestJob" /\ Job.id j ∉ DEAD_JOBS st)
                   (map transformJob results)))%list.
Proof.
  intros Hrpc.
  destruct (jobs_batch st root bc results Hrpc)
    as (all & adds & st' & Hrun & Hall & _ & Htrace).
  exists all, st'. split; [exact Hrun|]. split.
  { eapply Forall2_impl; [exact Hall|]. intros d j (Hd & _ & Ht). by split. }
  rewrite Htrace. by rewrite probes_normalized.
Qed.

(** ** Further facts about the resolvers *)

(** *** One liveness check *)

(** X1: a liveness check never throws, whatever the HTTP collaborator does:
it returns a boolean.  It sends at most one request, the one for the job's
stream, and the only id it can add to [DEAD_JOBS] is the job's own. *)
Theorem live_returns_boolean job root st :
  exists b st',
    run (live job root) st = (Returned (JS.boolean b), st') /\
    DEAD_JOBS st ⊆ DEAD_JOBS st' /\
    DEAD_JOBS st' ⊆ {[ Job.id job ]} ∪ DEAD_JOBS st /\
    (trace st' = trace st \/
     trace st' = (trace st ++ [Fetch (videoUrl_of job root)])%list).
Proof.
  destruct (String.eqb_spec (JS.typeof (Job.live job)) "boolean") as [Eb|Eb].
  { unfold run. rewrite live_precomputed by assumption.
    destruct (Job.live job) as [| |b| |]; try discriminate.
    exists b, st. split; [reflexivity|]. split; [reflexivity|].
    split; [apply union_subseteq_r|by left]. }
  destruct (decide (Job.id job ∈ DEAD_JOBS st)) as [Hin|Hin].
  { unfold run. rewrite live_cached by assumption.
    exists false, st. split; [reflexivity|]. split; [reflexivity|].
    split; [apply union_subseteq_r|by left]. }
  rewrite (live_probe job root st Eb Hin). simpl.
  destruct (fetch (trace st) (videoUrl_of job root)) as [res|e].
  - eexists _, _. split; [reflexivity|]. simpl. split; [reflexivity|].
    split; [apply union_subseteq_r|by right].
  - eexists _, _. split; [reflexivity|]. simpl.
    split; [apply union_subseteq_r|]. split; [reflexivity|by right].
Qed.

(** X2: for a job without a precomputed boolean [live] whose id is not in
[DEAD_JOBS], the check returns [true] exactly when the response has status
200.  A positive answer is not remembered: [DEAD_JOBS] is unchanged and the
next check of the job, under any root, sends a request again. *)
Theorem live_true_iff_200 job root st :
  JS.typeof (Job.live job) <> "boolean" ->
  Job.id job ∉ DEAD_JOBS st ->
  ((run (live job root) st).1 = Returned (JS.boolean true) <->
   exists res, fetch (trace st) (videoUrl_of job root) = Returned res /\
               status res = 200%Z) /\
  ((run (live job root) st).1 = Returned (JS.boolean true) ->
   DEAD_JOBS (run (live job root) st).2 = DEAD_JOBS st /\
   forall root',
     trace (run (live job root') (run (live job root) st).2).2 =
     (trace (run (live job root) st).2 ++ [Fetch (videoUrl_of job root')])%list).
Proof.
  intros Hty Hin. rewrite (live_probe job root st Hty Hin). simpl.
  destruct (fetch (trace st) (videoUrl_of job root)) as [res|e] eqn:Ef; simpl.
  - split.
    + split.
      * intros H. exists res. split; [reflexivity|].
        apply Z.eqb_eq. congruence.
      * intros (res' & Hres & Hs). assert (res' = res) as -> by congruence.
        apply Z.eqb_eq in Hs. by rewrite Hs.
    + intros _. split; [reflexivity|]. intros root'.
      rewrite (live_probe job root' _ Hty) by assumption. simpl.
      destruct (fetch (trace st ++ _)%list _); reflexivity.
  - split; [|discriminate]. split; [discriminate|].
    intros (res & Hres & _). discriminate.
Qed.

(** X3: a probe that is rejected is never retried: after it, a liveness
check of any job with that id and no precomputed boolean, under any root,
returns [false] and changes nothing, so it sends no request. *)
Theorem live_rejected_never_retried job root st e :
  JS.typeof (Job.live job) <> "boolean" ->
  Job.id job ∉ DEAD_JOBS st ->
  fetch (trace st) (videoUrl_of job root) = Thrown e ->
  forall job' root',
    Job.id job' = Job.id job ->
    run (live job' root') (run (live job root) st).2 =
    (Returned (if String.eqb (JS.typeof (Job.live job')) "boolean"
               then Job.live job' else JS.boolean false),
     (run (live job root) st).2).
Proof.
  intros Hty Hin He job' root' Hid.
  rewrite (live_probe job root st Hty Hin). simpl. rewrite He. simpl.
  unfold run.
  destruct (String.eqb_spec (JS.typeof (Job.live job')) "boolean") as [Eb|Eb].
  - rewrite live_precomputed by assumption. reflexivity.
  - rewrite live_cached; [reflexivity|assumption|].
    simpl. rewrite Hid. apply elem_of_union_l, elem_of_singleton. reflexivity.
Qed.

(** *** The batch, entry by entry *)

Ltac entry_cases :=
  unfold entry_detail, entry_of, decorates, sends; simpl;
  repeat split; intros; simpl in *;
  try reflexivity; try tauto; try congruence; eauto;
  try solve [intuition congruence].

Lemma jobs_entry_full root j st :
  exists c st' d add,
    jobs_entry root j st = (c, st') /\
    DEAD_JOBS st' = DEAD_JOBS st /\
    trace st' = (trace st ++ probes root (DEAD_JOBS st) [j])%list /\
    settles_with c d add /\
    entry_of root d j /\
    entry_detail root (DEAD_JOBS st) (trace st) j d add.
Proof.
  unfold probes, jobs_entry.
  destruct (String.eqb_spec (Job.type j) "TestJob") as [Et|Et].
  { rewrite filter_cons_False, filter_nil by (unfold sends; tauto).
    eexists _, st, _, ∅. split; [reflexivity|]. split; [reflexivity|].
    split; [simpl; by rewrite app_nil_r|]. split.
    { intros st2. exists st2. simpl. split; [reflexivity|].
      split; [by rewrite (left_id_L ∅ (∪))|reflexivity]. }
    entry_cases. }
  unfold live.
  destruct (String.eqb_spec "boolean" (JS.typeof (Job.live j))) as [Eb|Eb].
  { rewrite filter_cons_False, filter_nil by (unfold sends; intuition congruence).
    eexists _, st, _, ∅. split; [reflexivity|]. split; [reflexivity|].
    split; [simpl; by rewrite app_nil_r|]. split.
    { intros st2. exists st2. simpl. split; [reflexivity|].
      split; [by rewrite (left_id_L ∅ (∪))|reflexivity]. }
    unfold entry_detail, entry_of, sends.
    destruct (Job.live j) as [| |b| |]; try discriminate.
    entry_cases. }
  unfold try_catch, bind, DEAD_JOBS_has. simpl.
  destruct (decide (Job.id j ∈ DEAD_JOBS st)) as [Hin|Hin].
  { rewrite bool_decide_eq_true_2 by assumption. simpl.
    rewrite filter_cons_False, filter_nil by (unfold sends; tauto).
    eexists _, st, _, ∅. split; [reflexivity|]. split; [reflexivity|].
    split; [simpl; by rewrite app_nil_r|]. split.
    { intros st2. exists st2. simpl. split; [reflexivity|].
      split; [by rewrite (left_id_L ∅ (∪))|reflexivity]. }
    entry_cases. }
  rewrite bool_decide_eq_false_2 by assumption. simpl.
  rewrite filter_cons_True, filter_nil by (unfold sends; auto).
  fold (videoUrl_of j root).
  destruct (fetch (trace st) (videoUrl_of j root)) as [res|e] eqn:Ef.
  - eexists _, _, _, ∅. split; [reflexivity|]. simpl.
    split; [reflexivity|]. split; [reflexivity|]. split.
    { intros st2. exists st2. simpl. split; [reflexivity|].
      split; [by rewrite (left_id_L ∅ (∪))|reflexivity]. }
    unfold entry_detail. rewrite Ef. entry_cases.
  - eexists _, _, _, {[ Job.id j ]}. split; [reflexivity|]. simpl.
    split; [reflexivity|]. split; [reflexivity|]. split.
    { intros st2. eexists. simpl. split; [reflexivity|]. simpl. done. }
    unfold entry_detail. rewrite Ef. entry_cases.
Qed.

Lemma start_all_entries_full root js :
  forall st, exists cs st' ds adds,
    start_all (map (jobs_entry root) js) st = (cs, st') /\
    DEAD_JOBS st' = DEAD_JOBS st /\
    trace st' = (trace st ++ probes root (DEAD_JOBS st) js)%list /\
    Forall3 settles_with cs ds adds /\
    Forall2 (entry_of root) ds js /\
    forall i j,
      js !! i = Some j ->
      exists d add,
        ds !! i = Some d /\ adds !! i = Some add /\
        entry_detail root (DEAD_JOBS st)
          (trace st ++ probes root (DEAD_JOBS st) (take i js))%list j d add.
Proof.
  induction js as [|j0 js IH]; intros st; simpl.
  - exists [], st, [], []. repeat split; try constructor.
    + unfold probes. simpl. by rewrite app_nil_r.
    + intros i j Hi. discriminate.
  - destruct (jobs_entry_full root j0 st)
      as (c & st1 & d0 & add0 & E & Hd & Ht & Hc & Hof & Hdet).
    rewrite E.
    destruct (IH st1) as (cs & st2 & ds & adds & E' & Hd' & Ht' & Hcs & Hds & Hix).
    rewrite E'. exists (c :: cs), st2, (d0 :: ds), (add0 :: adds).
    split; [reflexivity|]. split; [congruence|]. split.
    { rewrite Ht', Ht, Hd, (probes_cons root _ j0 js). by rewrite <- app_assoc. }
    split; [by constructor|]. split; [by constructor|].
    intros [|i] j Hi; simpl in Hi.
    + injection Hi as <-. exists d0, add0. split; [reflexivity|].
      split; [reflexivity|]. simpl.
      unfold probes at 1. simpl. by rewrite app_nil_r.
    + destruct (Hix i j Hi) as (d & add & H1 & H2 & H3).
      exists d, add. split; [exact H1|]. split; [exact H2|].
      simpl. rewrite (probes_cons root _ j0 (take i js)), app_assoc, <- Ht, <- Hd.
      exact H3.
Qed.

Lemma jobs_batch_full st root bc results :
  getJobs (trace st) bc = Returned results ->
  exists all adds st',
    (forall dead,
        run (jobs {| JobsArgs.dead := dead; JobsArgs.streamRootUrl := root;
                     JobsArgs.broadcaster := bc |}) st =
        (Returned (if dead then all
                   else filter (fun x => Job.live x = JS.boolean true) all),
         st')) /\
    Forall2 (entry_of root) all (map transformJob results) /\
    DEAD_JOBS st' = ⋃ adds ∪ DEAD_JOBS st /\
    trace st' =
      (trace st ++
       GetJobs bc :: probes root (DEAD_JOBS st) (map transformJob results))%list /\
    length adds = length results /\
    forall i j,
      map transformJob results !! i = Some j ->
      exists d add,
        all !! i = Some d /\ adds !! i = Some add /\
        entry_detail root (DEAD_JOBS st)
          (asked_before root st bc (map transformJob results) i) j d add.
Proof.
  intros Hrpc.
  set (st1 := {| DEAD_JOBS := DEAD_JOBS st; trace := (trace st ++ [GetJobs bc])%list |}).
  destruct (start_all_entries_full root (map transformJob results) st1)
    as (cs & st2 & ds & adds & E & Hd & Ht & Hcs & Hds & Hix).
  destruct (settle_all_spec cs ds adds Hcs st2) as (st3 & E3 & Hd3 & Ht3).
  exists ds, adds, st3. repeat split.
  - intros dead. rewrite jobs_run. simpl. rewrite Hrpc. fold st1.
    rewrite E, E3. destruct dead; [reflexivity|].
    unfold is_live. by rewrite List_filter_bool_decide.
  - assumption.
  - rewrite Hd3, Hd. reflexivity.
  - rewrite Ht3, Ht. simpl. by rewrite <- app_assoc.
  - rewrite <- (Forall3_length_lr _ _ _ _ Hcs), (Forall3_length_lm _ _ _ _ Hcs).
    rewrite (Forall2_length _ _ _ Hds). apply length_map.
  - intros i j Hi. destruct (Hix i j Hi) as (d & add & H1 & H2 & H3).
    exists d, add. split; [exact H1|]. split; [exact H2|].
    unfold asked_before. simpl in H3. rewrite <- app_assoc in H3. exact H3.
Qed.

(** The batch, record by record. *)
Lemma jobs_batch_at st root bc results :
  getJobs (trace st) bc = Returned results ->
  exists all adds st',
    (forall dead,
        run (jobs {| JobsArgs.dead := dead; JobsArgs.streamRootUrl := root;
                     JobsArgs.broadcaster := bc |}) st =
        (Returned (if dead then all
                   else filter (fun x => Job.live x = JS.boolean true) all),
         st')) /\
    DEAD_JOBS st' = ⋃ adds ∪ DEAD_JOBS st /\
    length all = length results /\
    length adds = length results /\
    forall i raw,
      results !! i = Some raw ->
      exists d add,
        all !! i = Some d /\ adds !! i = Some add /\
        entry_of root d (transformJob raw) /\
        entry_detail root (DEAD_JOBS st)
          (asked_before root st bc (map transformJob results) i)
          (transformJob raw) d add.
Proof.
  intros Hrpc.
  destruct (jobs_batch_full st root bc results Hrpc)
    as (all & adds & st' & Hrun & Hall & Hdead & _ & Hlen & Hix).
  exists all, adds, st'. split; [exact Hrun|]. split; [exact Hdead|].
  split; [rewrite (Forall2_length _ _ _ Hall); apply length_map|].
  split; [exact Hlen|].
  intros i raw Hi.
  assert (map transformJob results !! i = Some (transformJob raw)) as Hj.
  { change (map transformJob results) with (transformJob <$> results).
    by rewrite list_lookup_fmap, Hi. }
  destruct (Hix _ _ Hj) as (d & add & H1 & H2 & H3).
  exists d, add. split; [exact H1|]. split; [exact H2|]. split; [|exact H3].
  eapply Forall2_lookup_lr; eassumption.
Qed.

Lemma sends_normalized dead raw :
  sends dead (transformJob raw) <->
  transcodingOptions raw <> [] /\ jobId raw ∉ dead.
Proof.
  unfold sends. simpl.
  destruct (transcodingOptions raw); simpl; intuition congruence.
Qed.

(** *** What a batch returns *)

(** C1: whatever records the RPC collaborator returns, [jobs] with
[dead = true] returns every normalized job, in the order of the records,
each decorated with its derived [url] and its derived [live]: [false] for a
record without transcoding options and for one whose id is in [DEAD_JOBS]
when the query starts, and otherwise whether the request for its stream was
answered with status 200.  With [dead = false] it returns, of those same
jobs, exactly the ones whose derived [live] is [true], in the same relative
order. *)
Theorem jobs_returns_live_or_all st root bc results :
  getJobs (trace st) bc = Returned results ->
  exists all st',
    run (jobs {| JobsArgs.dead := true; JobsArgs.streamRootUrl := root;
                 JobsArgs.broadcaster := bc |}) st = (Returned all, st') /\
    Forall2 decorates all (map transformJob results) /\
    (forall i raw,
        results !! i = Some raw ->
        exists d,
          all !! i = Some d /\
          decorates d (transformJob raw) /\
          Job.url d =
            JS.str (Url_resolve (or_empty root) (streamId raw ++ ".m3u8")) /\
          Job.live d =
            JS.boolean
              match transcodingOptions raw with
              | [] => false
              | _ :: _ =>
                  if bool_decide (jobId raw ∈ DEAD_JOBS st) then false
                  else
                    match
                      fetch (asked_before root st bc (map transformJob results) i)
                        (Url_resolve (or_empty root) (streamId raw ++ ".m3u8"))
                    with
                    | Returned res => (status res =? 200)%Z
                    | Thrown _ => false
                    end
              end) /\
    run (jobs {| JobsArgs.dead := false; JobsArgs.streamRootUrl := root;
                 JobsArgs.broadcaster := bc |}) st =
    (Returned (filter (fun x => Job.live x = JS.boolean true) all), st') /\
    filter (fun x => Job.live x = JS.boolean true) all `sublist_of` all.
Proof.
  intros Hrpc.
  destruct (jobs_batch_full st root bc results Hrpc)
    as (all & adds & st' & Hrun & Hall & _ & _ & _ & Hix).
  exists all, st'. split; [apply (Hrun true)|]. split.
  { eapply Forall2_impl; [exact Hall|]. intros d j H. apply H. }
  split; [|split; [apply (Hrun false)|apply sublist_filter]].
  intros i raw Hi.
  assert (map transformJob results !! i = Some (transformJob raw)) as Hj.
  { change (map transformJob results) with (transformJob <$> results).
    by rewrite list_lookup_fmap, Hi. }
  destruct (Hix _ _ Hj) as (d & add & Hd & _ & Hdet).
  pose proof (Forall2_lookup_lr _ _ _ _ _ _ Hall Hd Hj) as (Hdec & Hurl & Htest).
  exists d. split; [exact Hd|]. split; [exact Hdec|]. split; [exact Hurl|].
  destruct Hdet as (_ & _ & _ & Hcached & Hsend).
  destruct (transcodingOptions raw) as [|o os] eqn:Eo.
  - apply Htest. simpl. by rewrite Eo.
  - assert (Job.type (transformJob raw) <> "TestJob") as Hty
      by (simpl; rewrite Eo; discriminate).
    destruct (decide (jobId raw ∈ DEAD_JOBS st)) as [Hin|Hin].
    + rewrite bool_decide_eq_true_2 by assumption.
      apply Hcached; [exact Hty|simpl; discriminate|exact Hin].
    + rewrite bool_decide_eq_false_2 by assumption.
      assert (sends (DEAD_JOBS st) (transformJob raw)) as Hs.
      { apply sends_normalized. split; [by rewrite Eo|exact Hin]. }
      specialize (Hsend Hs).
      change (videoUrl_of (transformJob raw) root)
        with (Url_resolve (or_empty root) (streamId raw ++ ".m3u8")) in Hsend.
      destruct (fetch _ _); apply Hsend.
Qed.


Lemma jobs_all_typed st root bc results :
  getJobs (trace st) bc = Returned results ->
  exists all st',
    (forall dead,
        run (jobs {| JobsArgs.dead := dead; JobsArgs.streamRootUrl := root;
                     JobsArgs.broadcaster := bc |}) st =
        (Returned (if dead then all
                   else filter (fun x => Job.live x = JS.boolean true) all),
         st')) /\
    Forall (fun d =>
              (exists b, Job.live d = JS.boolean b) /\
              Job.url d =
                JS.str (Url_resolve (or_empty root) (Job.stream d ++ ".m3u8")))
           all.
Proof.
  intros Hrpc.
  destruct (jobs_batch_at st root bc results Hrpc)
    as (all & adds & st' & Hrun & _ & Hlen & _ & Hix).
  exists all, st'. split; [exact Hrun|].
  apply Forall_lookup. intros i d Hd.
  destruct (lookup_lt_is_Some_2 results i) as [raw Hraw].
  { rewrite <- Hlen. eapply lookup_lt_Some, Hd. }
  destruct (Hix i raw Hraw) as (d' & add & Hd' & _ & Hof & Hdet).
  assert (d' = d) as -> by congruence.
  split; [apply Hdet|].
  destruct Hof as ((_ & _ & _ & _ & Hs & _) & Hu & _).
  rewrite Hu, Hs. reflexivity.
Qed.

(** X4: when the RPC collaborator answers, [jobs] returns: no failure of a
probe fails the query.  Every job it returns carries a boolean [live] and,
as [url], the resolution of its stream id followed by [.m3u8] against the
root of the query. *)
Theorem jobs_returns_derived_fields st args results :
  getJobs (trace st) (JobsArgs.broadcaster args) = Returned results ->
  exists out st',
    run (jobs args) st = (Returned out, st') /\
    Forall (fun d =>
              (exists b, Job.live d = JS.boolean b) /\
              Job.url d =
                JS.str (Url_resolve (or_empty (JobsArgs.streamRootUrl args))
                          (Job.stream d ++ ".m3u8")))
           out.
Proof.
  destruct args as [dead root bc]. simpl. intros Hrpc.
  destruct (jobs_all_typed st root bc results Hrpc) as (all & st' & Hrun & Hall).
  eexists _, st'. split; [apply Hrun|].
  destruct dead; [exact Hall|].
  apply Forall_forall. intros d Hd. apply list_elem_of_filter in Hd as [_ Hd].
  revert d Hd. by apply Forall_forall.
Qed.

(** X5: in a batch, a job whose id is in [DEAD_JOBS] when the query starts
comes out with [live = false]; a job that comes out with [live = true] is a
["VideoJob"] whose id was not in [DEAD_JOBS].  With [dead = false] the query
returns exactly the latter. *)
Theorem jobs_live_are_uncached_video st root bc results :
  getJobs (trace st) bc = Returned results ->
  exists all st',
    (forall dead,
        run (jobs {| JobsArgs.dead := dead; JobsArgs.streamRootUrl := root;
                     JobsArgs.broadcaster := bc |}) st =
        (Returned (if dead then all
                   else filter (fun x => Job.live x = JS.boolean true) all),
         st')) /\
    Forall (fun d => Job.id d ∈ DEAD_JOBS st -> Job.live d = JS.boolean false) all /\
    Forall (fun d => Job.live d = JS.boolean true ->
                     Job.type d = "VideoJob" /\ Job.id d ∉ DEAD_JOBS st) all.
Proof.
  intros Hrpc.
  destruct (jobs_batch_at st root bc results Hrpc)
    as (all & adds & st' & Hrun & _ & Hlen & _ & Hix).
  assert (forall i d, all !! i = Some d ->
            (Job.id d ∈ DEAD_JOBS st -> Job.live d = JS.boolean false) /\
            (Job.type d = "TestJob" -> Job.live d = JS.boolean false) /\
            (Job.type d = "TestJob" \/ Job.type d = "VideoJob")) as Hfacts.
  { intros i d Hd.
    destruct (lookup_lt_is_Some_2 results i) as [raw Hraw].
    { rewrite <- Hlen. eapply lookup_lt_Some, Hd. }
    destruct (Hix i raw Hraw) as (d' & add & Hd' & _ & Hof & Hdet).
    assert (d' = d) as -> by congruence.
    destruct Hof as ((Hty & Hid & _) & _ & Htest).
    destruct Hdet as (_ & _ & _ & Hcached & _).
    rewrite Hty, Hid. split; [|split].
    - intros Hin.
      destruct (String.eqb_spec (Job.type (transformJob raw)) "TestJob") as [E|E];
        [by apply Htest|].
      apply Hcached; [exact E|simpl; discriminate|exact Hin].
    - exact Htest.
    - simpl. destruct (transcodingOptions raw); simpl; auto. }
  exists all, st'. split; [exact Hrun|]. split.
  - apply Forall_lookup. intros i d Hd. apply (Hfacts i d Hd).
  - apply Forall_lookup. intros i d Hd Hlive.
    destruct (Hfacts i d Hd) as (Hc & Ht & [E|E]).
    + rewrite (Ht E) in Hlive. discriminate.
    + split; [exact E|]. intros Hin. rewrite (Hc Hin) in Hlive. discriminate.
Qed.

(** X6: in a batch, the job of a record with transcoding options whose id
is not in [DEAD_JOBS] when the query starts gets [live = true] exactly when
the request for its stream, sent after the RPC call and the requests of the
records before it, is answered with status 200; a rejected request gives
[false] like any other status. *)
Theorem jobs_live_by_probe st root bc results i raw :
  getJobs (trace st) bc = Returned results ->
  results !! i = Some raw ->
  transcodingOptions raw <> [] ->
  jobId raw ∉ DEAD_JOBS st ->
  exists all st' d,
    run (jobs {| JobsArgs.dead := true; JobsArgs.streamRootUrl := root;
                 JobsArgs.broadcaster := bc |}) st = (Returned all, st') /\
    all !! i = Some d /\
    Job.id d = jobId raw /\
    Job.live d =
      JS.boolean
        match fetch (asked_before root st bc (map transformJob results) i)
                (Url_resolve (or_empty root) (streamId raw ++ ".m3u8")) with
        | Returned res => (status res =? 200)%Z
        | Thrown _ => false
        end.
Proof.
  intros Hrpc Hi Hopt Hin.
  destruct (jobs_batch_at st root bc results Hrpc)
    as (all & adds & st' & Hrun & _ & _ & _ & Hix).
  destruct (Hix i raw Hi) as (d & add & Hd & _ & Hof & Hdet).
  exists all, st', d. split; [apply (Hrun true)|]. split; [exact Hd|].
  destruct Hof as ((_ & Hid & _) & _). split; [exact Hid|].
  destruct Hdet as (_ & _ & _ & _ & Hsend).
  specialize (Hsend (proj2 (sends_normalized _ raw) (conj Hopt Hin))).
  change (videoUrl_of (transformJob raw) root)
    with (Url_resolve (or_empty root) (streamId raw ++ ".m3u8")) in Hsend.
  destruct (fetch _ _); apply Hsend.
Qed.

(** X7: after a batch, [DEAD_JOBS] holds what it held before and the ids of
the records with transcoding options whose request was rejected, and nothing
else: the id of a record without options, or of one whose request was
answered with whatever status, is not added. *)
Theorem jobs_cache_after st root bc results :
  getJobs (trace st) bc = Returned results ->
  exists st',
    (forall dead,
        (run (jobs {| JobsArgs.dead := dead; JobsArgs.streamRootUrl := root;
                      JobsArgs.broadcaster := bc |}) st).2 = st') /\
    forall id,
      id ∈ DEAD_JOBS st' <->
      id ∈ DEAD_JOBS st \/
      exists i raw e,
        results !! i = Some raw /\ jobId raw = id /\
        transcodingOptions raw <> [] /\
        fetch (asked_before root st bc (map transformJob results) i)
          (Url_resolve (or_empty root) (streamId raw ++ ".m3u8")) = Thrown e.
Proof.
  intros Hrpc.
  destruct (jobs_batch_at st root bc results Hrpc)
    as (all & adds & st' & Hrun & Hdead & _ & Hlen & Hix).
  exists st'. split; [intros dead; by rewrite Hrun|].
  intros id. rewrite Hdead, elem_of_union, elem_of_union_list. split.
  - intros [(add & Hadd & Hid)|Hold]; [|by left].
    apply list_elem_of_lookup in Hadd as [i Hadd].
    destruct (lookup_lt_is_Some_2 results i) as [raw Hraw].
    { rewrite <- Hlen. eapply lookup_lt_Some, Hadd. }
    destruct (Hix i raw Hraw) as (d & add' & _ & Hadd' & _ & Hdet).
    assert (add' = add) as -> by congruence.
    destruct Hdet as (_ & Hquiet & _ & _ & Hsend).
    destruct (decide (sends (DEAD_JOBS st) (transformJob raw))) as [Hs|Hs].
    + specialize (Hsend Hs).
      change (videoUrl_of (transformJob raw) root)
        with (Url_resolve (or_empty root) (streamId raw ++ ".m3u8")) in Hsend.
      destruct (fetch (asked_before root st bc (map transformJob results) i) _)
        as [res|e] eqn:Ef.
      * destruct Hsend as [_ ->]. by apply not_elem_of_empty in Hid.
      * destruct Hsend as [_ ->]. apply elem_of_singleton in Hid.
        right. exists i, raw, e. split; [exact Hraw|]. split; [by rewrite Hid|].
        split; [|exact Ef]. by apply sends_normalized in Hs as [? _].
    + rewrite (Hquiet Hs) in Hid. by apply not_elem_of_empty in Hid.
  - intros [Hold|(i & raw & e & Hraw & Hid & Hopt & Ef)]; [by right|].
    destruct (decide (id ∈ DEAD_JOBS st)) as [Hin|Hin]; [by right|].
    left. destruct (Hix i raw Hraw) as (d & add & _ & Hadd & _ & Hdet).
    exists add. split; [eapply list_elem_of_lookup_2, Hadd|].
    destruct Hdet as (_ & _ & _ & _ & Hsend).
    assert (sends (DEAD_JOBS st) (transformJob raw)) as Hs.
    { apply sends_normalized. split; [exact Hopt|]. by rewrite Hid. }
    specialize (Hsend Hs).
    change (videoUrl_of (transformJob raw) root)
      with (Url_resolve (or_empty root) (streamId raw ++ ".m3u8")) in Hsend.
    rewrite Ef in Hsend. destruct Hsend as [_ ->].
    apply elem_of_singleton. by rewrite <- Hid.
Qed.

(** X8: the fields of a job returned by [jobs] are settled: resolving
[live] on it again, under any root and in any state, returns the value it
carries without a request or a change of state, and resolving [url] on it
returns the url it carries. *)
Theorem jobs_fields_resolve_as_carried st args results :
  getJobs (trace st) (JobsArgs.broadcaster args) = Returned results ->
  exists out st',
    run (jobs args) st = (Returned out, st') /\
    Forall (fun d =>
              forall root' st2,
                live d root' st2 = (Fin (Returned (Job.live d)), st2) /\
                JS.str (url (Job.stream d) (Job.url d) root') = Job.url d)
           out.
Proof.
  destruct args as [dead root bc]. simpl. intros Hrpc.
  destruct (jobs_all_typed st root bc results Hrpc) as (all & st' & Hrun & Hall).
  assert (Forall (fun d =>
              forall root' st2,
                live d root' st2 = (Fin (Returned (Job.live d)), st2) /\
                JS.str (url (Job.stream d) (Job.url d) root') = Job.url d) all)
    as Hall'.
  { eapply Forall_impl; [exact Hall|]. intros d ([b Hb] & Hu) root' st2.
    split.
    - apply live_precomputed. by rewrite Hb.
    - by rewrite Hu. }
  eexists _, st'. split; [apply Hrun|].
  destruct dead; [exact Hall'|].
  apply Forall_forall. intros d Hd. apply list_elem_of_filter in Hd as [_ Hd].
  exact (proj1 (Forall_forall _ _) Hall' d Hd).
Qed.

(** *** The order in which a batch settles *)

Lemma settle_all_returns {A} (cs : list (Co A)) :
  Forall settles cs -> forall st, exists ds, (settle_all cs st).1 = Returned ds.
Proof.
  induction 1 as [|c cs (a & add & Hc) _ IH]; intros st; simpl.
  - by exists [].
  - destruct (Hc st) as (st1 & E & _). rewrite E.
    destruct (IH st1) as (ds & Hds).
    destruct (settle_all cs st1) as [os st2]. simpl in Hds. subst os.
    by exists (a :: ds).
Qed.

Lemma settle_all_values_any_order {A} (cs cs' : list (Co A)) :
  cs ≡ₚ cs' -> Forall settles cs ->
  forall st, exists ds ds',
    (settle_all cs st).1 = Returned ds /\
    (settle_all cs' st).1 = Returned ds' /\
    ds ≡ₚ ds'.
Proof.
  induction 1 as [|c cs cs' _ IH|c1 c2 cs|cs cs' cs'' H1 IH1 H2 IH2];
    intros Hall st.
  - by exists [], [].
  - pose proof (Forall_inv Hall) as (a & add & Hc).
    simpl. destruct (Hc st) as (st1 & E & _). rewrite E.
    destruct (IH (Forall_inv_tail Hall) st1) as (ds & ds' & E1 & E2 & Hp).
    destruct (settle_all cs st1) as [os s1], (settle_all cs' st1) as [os' s1'].
    simpl in *. subst. exists (a :: ds), (a :: ds'). by repeat constructor.
  - pose proof (Forall_inv Hall) as (a2 & add2 & H2).
    pose proof (Forall_inv (Forall_inv_tail Hall)) as (a1 & add1 & H1).
    pose proof (Forall_inv_tail (Forall_inv_tail Hall)) as Hcs.
    simpl.
    destruct (H2 st) as (s2 & E2 & D2 & T2). rewrite E2.
    destruct (H1 s2) as (s21 & E21 & D21 & T21). rewrite E21.
    destruct (H1 st) as (s1 & E1 & D1 & T1). rewrite E1.
    destruct (H2 s1) as (s12 & E12 & D12 & T12). rewrite E12.
    assert (s21 = s12) as ->.
    { apply State_eq; [|congruence].
      rewrite D21, D2, D12, D1.
      by rewrite !(assoc_L (∪)), (comm_L (∪) add1 add2). }
    destruct (settle_all_returns cs Hcs s12) as (ds & Hds).
    destruct (settle_all cs s12) as [os s3]. simpl in Hds. subst os.
    exists (a2 :: a1 :: ds), (a1 :: a2 :: ds). repeat split. constructor.
  - destruct (IH1 Hall st) as (ds & ds1 & E & E1 & Hp1).
    assert (Forall settles cs') as Hall' by (by rewrite <- H1).
    destruct (IH2 Hall' st) as (ds1' & ds2 & E1' & E2 & Hp2).
    assert (ds1' = ds1) as -> by congruence.
    exists ds, ds2. split; [exact E|]. split; [exact E2|]. by etrans.
Qed.

(** X9: the requests of a started batch may complete in any order: settling
its entries in any order leaves the same [DEAD_JOBS] and trace, no entry
throws, and every entry settles with the same job. *)
Theorem batch_settles_in_any_order root js st cs' st2 :
  (start_all (map (jobs_entry root) js) st).1 ≡ₚ cs' ->
  exists ds ds',
    settle_all (start_all (map (jobs_entry root) js) st).1 st2 =
      (Returned ds, (settle_all cs' st2).2) /\
    (settle_all cs' st2).1 = Returned ds' /\
    ds ≡ₚ ds' /\
    Forall2 decorates ds js.
Proof.
  intros Hperm.
  pose proof (started_entries_settle root js st) as Hall.
  destruct (settle_all_values_any_order _ _ Hperm Hall st2)
    as (ds & ds' & E & E' & Hp).
  pose proof (settle_all_any_order _ _ Hperm Hall st2) as Hst.
  exists ds, ds'. split.
  { destruct (settle_all _ st2) as [o s]. simpl in *. by subst. }
  split; [exact E'|]. split; [exact Hp|].
  destruct (start_all_entries root js st) as (cs & st1 & ds0 & adds & Es & _ & _ & H3 & H2).
  rewrite Es in E. simpl in E.
  destruct (settle_all_spec cs ds0 adds H3 st2) as (s3 & E3 & _).
  rewrite E3 in E. simpl in E. injection E as <-.
  eapply Forall2_impl; [exact H2|]. intros d j H. apply H.
Qed.

(** *** When no request is ever rejected *)

Lemma run_co_keeps {A} (c : Co A) :
  keeps c -> forall st, DEAD_JOBS (run_co c st).2 = DEAD_JOBS st.
Proof.
  induction c as [o|k IH] using Co_induction; simpl; intros Hk st.
  - reflexivity.
  - specialize (Hk st). specialize (IH st).
    destruct (k st) as [c' st']. destruct Hk as [Heq Hk]. simpl in IH.
    rewrite (IH Hk). exact Heq.
Qed.

Lemma bind_co_keeps {A B} (c : Co A) (f : A -> Async B) :
  keeps c -> (forall a, keeps_async (f a)) ->
  forall st, let (c', st') := bind_co c f st in
             DEAD_JOBS st' = DEAD_JOBS st /\ keeps c'.
Proof.
  intros Hk Hf. induction c as [[a|e]|k IH] using Co_induction; intros st; simpl.
  - apply Hf.
  - split; [reflexivity|exact I].
  - split; [reflexivity|]. intros st1.
    specialize (Hk st1). specialize (IH st1).
    destruct (k st1) as [c1 st2]. destruct Hk as [Heq Hk].
    specialize (IH Hk st2). simpl in IH.
    destruct (bind_co c1 f st2) as [c2 st3]. destruct IH as [Heq' Hk'].
    split; [congruence|assumption].
Qed.

Lemma keeps_bind {A B} (m : Async A) (f : A -> Async B) :
  keeps_async m -> (forall a, keeps_async (f a)) -> keeps_async (bind m f).
Proof.
  intros Hm Hf st. unfold bind. specialize (Hm st).
  destruct (m st) as [c st1]. destruct Hm as [Heq Hk].
  pose proof (bind_co_keeps c f Hk Hf st1) as H.
  destruct (bind_co c f st1) as [c2 st2]. destruct H as [Heq' Hk'].
  split; [congruence|assumption].
Qed.

Lemma keeps_ret {A} (a : A) : keeps_async (ret a).
Proof. intros st. simpl. split; [reflexivity|exact I]. Qed.

Lemma keeps_await_value {A} (a : A) : keeps_async (await_value a).
Proof.
  intros st. simpl. split; [reflexivity|]. intros st1.
  split; [reflexivity|exact I].
Qed.

Lemma keeps_await_getJob id : keeps_async (await_getJob id).
Proof.
  intros st. simpl. split; [reflexivity|]. intros st1.
  split; [reflexivity|exact I].
Qed.

Lemma keeps_await_getJobs filters : keeps_async (await_getJobs filters).
Proof.
  intros st. simpl. split; [reflexivity|]. intros st1.
  split; [reflexivity|exact I].
Qed.

Lemma start_all_keeps {A} (ms : list (Async A)) :
  Forall keeps_async ms ->
  forall st, let (cs, st') := start_all ms st in
             DEAD_JOBS st' = DEAD_JOBS st /\ Forall keeps cs.
Proof.
  induction 1 as [|m ms Hm _ IH]; intros st; simpl.
  - split; [reflexivity|constructor].
  - specialize (Hm st). destruct (m st) as [c st1]. destruct Hm as [Heq Hk].
    specialize (IH st1). destruct (start_all ms st1) as [cs st2].
    destruct IH as [Heq' Hks].
    split; [congruence|constructor; assumption].
Qed.

Lemma settle_all_keeps {A} (cs : list (Co A)) :
  Forall keeps cs -> forall st, DEAD_JOBS (settle_all cs st).2 = DEAD_JOBS st.
Proof.
  induction 1 as [|c cs Hc _ IH]; intros st; simpl.
  - reflexivity.
  - pose proof (run_co_keeps c Hc st) as H1.
    destruct (run_co c st) as [o st1]. simpl in H1.
    specialize (IH st1). destruct (settle_all cs st1) as [os st2]. simpl in *.
    congruence.
Qed.

Lemma keeps_Promise_all {A} (ms : list (Async A)) :
  Forall keeps_async ms -> keeps_async (Promise_all ms).
Proof.
  intros Hms st. unfold Promise_all.
  pose proof (start_all_keeps ms Hms st) as H.
  destruct (start_all ms st) as [cs st1]. destruct H as [Heq Hcs].
  split; [assumption|]. intros st2.
  pose proof (settle_all_keeps cs Hcs st2) as H.
  destruct (settle_all cs st2) as [o st3]. simpl in H.
  split; [assumption|exact I].
Qed.

Section AnsweringCollaborator.

(** The HTTP collaborator answers every request, with whatever status. *)
Hypothesis fetch_answers : forall tr u, exists res, fetch tr u = Returned res.

Lemma keeps_live job root : keeps_async (live job root).
Proof.
  unfold live. destruct (String.eqb _ _); [apply keeps_ret|].
  intros st. unfold try_catch, bind, DEAD_JOBS_has. simpl.
  destruct (bool_decide _); simpl.
  - split; [reflexivity|exact I].
  - split; [reflexivity|]. intros st1.
    destruct (fetch_answers (trace st) (url (Job.stream job) (Job.url job) root))
      as [res ->].
    simpl. split; [reflexivity|exact I].
Qed.

Lemma keeps_jobs_entry root j : keeps_async (jobs_entry root j).
Proof.
  unfold jobs_entry. apply keeps_bind.
  - destruct (String.eqb _ _); [apply keeps_ret|apply keeps_live].
  - intros v. apply keeps_bind; [apply keeps_await_value|].
    intros u. apply keeps_ret.
Qed.

Lemma keeps_jobs args : keeps_async (jobs args).
Proof.
  unfold jobs. apply keeps_bind; [apply keeps_await_getJobs|].
  intros results. apply keeps_bind; [|intros l; apply keeps_ret].
  apply keeps_Promise_all. apply Forall_forall. intros m Hm.
  apply list_elem_of_fmap in Hm as [j [-> _]]. apply keeps_jobs_entry.
Qed.

Lemma keeps_invoke c : keeps_async (invoke c).
Proof.
  destruct c; simpl.
  - apply keeps_bind; [|intros ?; apply keeps_ret].
    unfold job. apply keeps_bind; [apply keeps_await_getJob|].
    intros ?. apply keeps_ret.
  - apply keeps_bind; [apply keeps_jobs|intros ?; apply keeps_ret].
  - apply keeps_bind; [apply keeps_live|intros ?; apply keeps_ret].
  - apply keeps_ret.
  - apply keeps_ret.
Qed.

Lemma steps_keep cfg cfg' :
  rtc step cfg cfg' -> Forall keeps cfg.2 ->
  DEAD_JOBS cfg'.1 = DEAD_JOBS cfg.1 /\ Forall keeps cfg'.2.
Proof.
  induction 1 as [cfg|cfg cfg1 cfg2 Hstep _ IH]; intros Hpool.
  - split; [reflexivity|assumption].
  - assert (DEAD_JOBS cfg1.1 = DEAD_JOBS cfg.1 /\ Forall keeps cfg1.2) as [Heq Hpool1].
    { destruct Hstep as [c st pool co st' E | i k st pool co st' Hi E]; simpl in *.
      - pose proof (keeps_invoke c st) as H. rewrite E in H. destruct H as [Heq Hk].
        split; [assumption|]. apply Forall_app. split; [assumption|].
        constructor; [assumption|constructor].
      - pose proof (Forall_lookup_1 _ _ _ _ Hpool Hi st) as H. rewrite E in H.
        destruct H as [Heq Hk]. split; [assumption|].
        apply Forall_insert; assumption. }
    destruct (IH Hpool1) as [Heq' Hpool2].
    split; [congruence|assumption].
Qed.

(** X10: only rejected requests fill [DEAD_JOBS].  If the HTTP collaborator
answers every request, with whatever status, then along any execution of a
resolver instance, whatever calls are made and however they interleave,
[DEAD_JOBS] stays empty. *)
Theorem DEAD_JOBS_stays_empty history cfg :
  rtc step (fresh history) cfg -> DEAD_JOBS cfg.1 = ∅.
Proof.
  intros Hreach.
  destruct (steps_keep _ _ Hreach) as [Heq _]; [constructor|].
  rewrite Heq. reflexivity.
Qed.

End AnsweringCollaborator.

(** *** Checks in flight together *)

Lemma live_starts_probe job root st :
  JS.typeof (Job.live job) <> "boolean" ->
  Job.id job ∉ DEAD_JOBS st ->
  exists c,
    live job root st =
    (c, {| DEAD_JOBS := DEAD_JOBS st;
           trace := (trace st ++ [Fetch (videoUrl_of job root)])%list |}).
Proof.
  intros Hty Hin. unfold live.
  destruct (String.eqb_spec "boolean" (JS.typeof (Job.live job))) as [E|_];
    [congruence|].
  unfold try_catch, bind, DEAD_JOBS_has. simpl.
  rewrite bool_decide_eq_false_2 by assumption. simpl.
  eexists. reflexivity.
Qed.

(** X16: [DEAD_JOBS] is read when a liveness check starts and written only
when its request has been rejected, so checks of one job that overlap are not
merged: a second check started before the first has settled sends its own
request, whatever becomes of the first. *)
Theorem live_overlapping_checks_both_probe job root root' st :
  JS.typeof (Job.live job) <> "boolean" ->
  Job.id job ∉ DEAD_JOBS st ->
  exists c1 st1 c2 st2,
    live job root st = (c1, st1) /\
    live job root' st1 = (c2, st2) /\
    DEAD_JOBS st2 = DEAD_JOBS st /\
    trace st2 =
      (trace st ++ [Fetch (videoUrl_of job root); Fetch (videoUrl_of job root')])%list.
Proof.
  intros Hty Hin.
  destruct (live_starts_probe job root st Hty Hin) as [c1 E1].
  destruct (live_starts_probe job root' _ Hty
              (Hin : Job.id job ∉ DEAD_JOBS
                       {| DEAD_JOBS := DEAD_JOBS st;
                          trace := (trace st ++ [Fetch (videoUrl_of job root)])%list |}))
    as [c2 E2].
  eexists c1, _, c2, _. split; [exact E1|]. split; [exact E2|]. simpl.
  split; [reflexivity|]. by rewrite <- app_assoc.
Qed.

(** *** The RPC collaborator *)

Lemma transformJob_type_profiles raw :
  Job.type (transformJob raw) = "TestJob" <-> Job.profiles (transformJob raw) = [].
Proof.
  simpl. destruct (transcodingOptions raw); simpl; split; congruence.
Qed.

(** X11: [job] asks the RPC collaborator once and nothing else: it sends no
request for the stream and leaves [DEAD_JOBS] alone.  A failure of the RPC
collaborator is thrown to the caller as it is; a record is returned
normalized, with [live] and [url] not derived. *)
Theorem job_normalizes_only id st :
  DEAD_JOBS (run (job id) st).2 = DEAD_JOBS st /\
  trace (run (job id) st).2 = (trace st ++ [GetJob id])%list /\
  (forall e, getJob (trace st) id = Thrown e -> (run (job id) st).1 = Thrown e) /\
  (forall raw,
      getJob (trace st) id = Returned raw ->
      (run (job id) st).1 = Returned (transformJob raw)) /\
  (forall j,
      (run (job id) st).1 = Returned j ->
      Job.live j = JS.undefined /\ Job.url j = JS.undefined /\
      (Job.type j = "TestJob" <-> Job.profiles j = [])).
Proof.
  rewrite job_run. simpl. split; [reflexivity|]. split; [reflexivity|].
  destruct (getJob (trace st) id) as [raw|e].
  - split; [discriminate|]. split; [by intros raw' [= <-]|].
    intros j [= <-]. split; [reflexivity|]. split; [reflexivity|].
    apply transformJob_type_profiles.
  - split; [by intros e' [= <-]|]. split; discriminate.
Qed.

(** X12: a failure of the RPC collaborator fails [jobs] with the same
error: no request for a stream is sent and [DEAD_JOBS] is left alone. *)
Theorem jobs_fails_with_rpc args st e :
  getJobs (trace st) (JobsArgs.broadcaster args) = Thrown e ->
  run (jobs args) st =
  (Thrown e,
   {| DEAD_JOBS := DEAD_JOBS st;
      trace := (trace st ++ [GetJobs (JobsArgs.broadcaster args)])%list |}).
Proof. intros H. rewrite jobs_run. simpl. by rewrite H. Qed.

End Resolvers.

(** ** The job normalizer *)

Lemma transformProfile_other (o : JS.object) (k : string) :
  k <> "id" -> k <> "hash" -> transformProfile o !! k = o !! k.
Proof.
  intros Hid Hhash. unfold transformProfile, JS.literal_spread, JS.rest_without.
  rewrite lookup_union, lookup_delete_ne, lookup_singleton_ne by done.
  by destruct (o !! k).
Qed.

Lemma transformProfile_hash (o : JS.object) :
  transformProfile o !! "hash" = None.
Proof.
  unfold transformProfile, JS.literal_spread, JS.rest_without.
  rewrite lookup_union, lookup_delete_eq, lookup_singleton_ne by done.
  reflexivity.
Qed.

Lemma transformProfile_id (o : JS.object) :
  o !! "id" = None -> transformProfile o !! "id" = Some (JS.get o "hash").
Proof.
  intros Hid. unfold transformProfile, JS.literal_spread, JS.rest_without.
  rewrite lookup_union, lookup_delete_ne, Hid, lookup_singleton_eq by done.
  reflexivity.
Qed.

(** An option that has a property [id] of its own keeps it: the spread
writes it over the hash. *)
Lemma transformProfile_own_id (o : JS.object) (v : JS.value) :
  o !! "id" = Some v -> transformProfile o !! "id" = Some v.
Proof.
  intros Hid. unfold transformProfile, JS.literal_spread, JS.rest_without.
  rewrite lookup_union, lookup_delete_ne, Hid, lookup_singleton_eq by done.
  reflexivity.
Qed.

Lemma transformProfile_option hash name bitrate framerate resolution :
  transformProfile (transcodingOption hash name bitrate framerate resolution) =
  videoProfile hash name bitrate framerate resolution.
Proof.
  apply map_eq. intros k.
  destruct (decide (k = "id")) as [->|Hid].
  { rewrite transformProfile_id by reflexivity. reflexivity. }
  destruct (decide (k = "hash")) as [->|Hhash].
  { rewrite transformProfile_hash. reflexivity. }
  rewrite transformProfile_other by assumption.
  unfold transcodingOption, videoProfile.
  rewrite !(lookup_insert_ne _ "hash"), !(lookup_insert_ne _ "id") by congruence.
  reflexivity.
Qed.

(** C4: normalization gives type ["TestJob"] exactly when the record has no
transcoding option, and ["VideoJob"] exactly when it has one or more; the
type is ["TestJob"] exactly when the normalized job has no profile. *)
Theorem transformJob_type (raw : RawJob) :
  (Job.type (transformJob raw) = "TestJob" <-> transcodingOptions raw = []) /\
  (Job.type (transformJob raw) = "VideoJob" <-> transcodingOptions raw <> []) /\
  (Job.type (transformJob raw) = "TestJob" <-> Job.profiles (transformJob raw) = []).
Proof.
  unfold transformJob. simpl.
  destruct (transcodingOptions raw) as [|o os]; simpl;
    repeat split; intros; congruence.
Qed.

(** C8: the profile normalization makes of a transcoding option has the
option's hash as its [id], and the option's name, bitrate, framerate and
resolution unaltered; the profiles are those of the options, one each, in
order. *)
Theorem transformJob_profiles (raw : RawJob) (i : nat)
    (hash name bitrate framerate resolution : JS.value) :
  transcodingOptions raw !! i =
    Some (transcodingOption hash name bitrate framerate resolution) ->
  Job.profiles (transformJob raw) !! i =
    Some (videoProfile hash name bitrate framerate resolution) /\
  length (Job.profiles (transformJob raw)) = length (transcodingOptions raw).
Proof.
  intros Hi. simpl. split; [|apply length_map].
  change (map transformProfile (transcodingOptions raw))
    with (transformProfile <$> transcodingOptions raw).
  rewrite list_lookup_fmap, Hi. simpl. by rewrite transformProfile_option.
Qed.

Lemma transformJob_profiles_witness :
  Job.profiles (transformJob Sample.raw2) !! 0%nat =
    Some (videoProfile (JS.str "h1") (JS.str "P1") (JS.str "1000k")
            (JS.number 30) (JS.str "1280x720")) /\
  length (Job.profiles (transformJob Sample.raw2)) =
    length (transcodingOptions Sample.raw2).
Proof. apply (transformJob_profiles Sample.raw2 0). reflexivity. Defined.

(** ** The schema *)

(** C9, as amended: the declared default of the [streamRootUrl] argument of
the [VideoJob] fields [live] and [url] is ["http://streams.livepeer.org"],
the constant [DEFAULT_STREAM_ROOT], whatever [streamRoot] the schema is
created with. *)
Theorem VideoJob_streamRootUrl_default (streamRoot : option string) :
  Schema.default_of (Schema.createSchema streamRoot) "VideoJob" "live" "streamRootUrl"
    = Some (JS.str "http://streams.livepeer.org") /\
  Schema.default_of (Schema.createSchema streamRoot) "VideoJob" "url" "streamRootUrl"
    = Some (JS.str "http://streams.livepeer.org") /\
  Schema.DEFAULT_STREAM_ROOT = "http://streams.livepeer.org".
Proof. repeat split. Qed.

Lemma VideoJob_streamRootUrl_default_counterexample :
  Schema.default_of (Schema.createSchema None) "VideoJob" "live" "streamRootUrl"
    <> Some (JS.str "http://www.streambox.fr/playlists/x36xhzz/") /\
  Schema.default_of (Schema.createSchema None) "VideoJob" "url" "streamRootUrl"
    <> Some (JS.str "http://www.streambox.fr/playlists/x36xhzz/").
Proof. split; discriminate. Qed.

(** ** The stream URL resolver, with the reference resolution *)

Module Rfc3986Facts.
Import Rfc3986.

Lemma append_cons c (s t : string) : String c s ++ t = String c (s ++ t).
Proof. reflexivity. Qed.

Lemma append_nil_r (s : string) : s ++ "" = s.
Proof.
  induction s as [|c s IH]; [reflexivity|]. by rewrite append_cons, IH.
Qed.

Lemma append_assoc (a b c : string) : (a ++ b) ++ c = a ++ (b ++ c).
Proof.
  induction a as [|x a IH]; [reflexivity|]. by rewrite !append_cons, IH.
Qed.

Lemma free_of_app stop a b :
  free_of stop (a ++ b) = free_of stop a && free_of stop b.
Proof.
  induction a as [|c a IH]; [reflexivity|].
  rewrite append_cons. simpl. rewrite IH. by rewrite andb_assoc.
Qed.

Lemma free_of_weaken (stop stop' : Ascii.ascii -> bool) s :
  (forall c, stop' c = true -> stop c = true) ->
  free_of stop s = true -> free_of stop' s = true.
Proof.
  intros Hsub. induction s as [|c s IH]; simpl; [done|].
  intros [Hc Hs]%andb_true_iff. apply andb_true_iff. split; [|by apply IH].
  destruct (stop' c) eqn:E; [|done]. by rewrite (Hsub c E) in Hc.
Qed.

Lemma break_free stop s :
  free_of stop s = true -> break stop s = (s, "").
Proof.
  induction s as [|c s IH]; simpl; [done|].
  intros [Hc Hs]%andb_true_iff. apply negb_true_iff in Hc. rewrite Hc.
  by rewrite (IH Hs).
Qed.

Lemma break_at stop a c r :
  free_of stop a = true -> stop c = true ->
  break stop (a ++ String c r) = (a, String c r).
Proof.
  intros Ha Hc. induction a as [|x a IH].
  - simpl. by rewrite Hc.
  - rewrite append_cons. simpl in *. apply andb_true_iff in Ha as [Hx Ha].
    apply negb_true_iff in Hx. rewrite Hx. by rewrite (IH Ha).
Qed.

Lemma one_of_slash c : one_of ":/?#" c = false -> c <> "/"%char.
Proof. intros H ->. discriminate. Qed.

Lemma parse_free s :
  free_of (one_of ":/?#") s = true -> parse s = path_only s.
Proof.
  intros Hs. unfold parse. rewrite (break_free _ s Hs).
  assert (free_of (one_of "?#") s = true) as Hs'.
  { revert Hs. apply free_of_weaken. intros c. unfold one_of. simpl.
    destruct (Ascii.eqb c "?"), (Ascii.eqb c "#"), (Ascii.eqb c ":"), (Ascii.eqb c "/"); done. }
  destruct s as [|c s]; [reflexivity|].
  simpl in Hs. apply andb_true_iff in Hs as [Hc _]. apply negb_true_iff in Hc.
  apply one_of_slash in Hc.
  assert (forall (X : string -> option string * string) Y,
             match String c s with
             | String "/" (String "/" r) => X r
             | _ => Y
             end = Y) as Hm.
  { intros X Y.
    destruct c as [[] [] [] [] [] [] [] []]; try reflexivity. congruence. }
  rewrite Hm. rewrite (break_free _ _ Hs'). reflexivity.
Qed.

Lemma prefix_cons a s1 b s2 :
  String.prefix (String a s1) (String b s2) =
  if ascii_dec a b then String.prefix s1 s2 else false.
Proof. reflexivity. Qed.

Lemma free_of_cons stop c s :
  free_of stop (String c s) = true -> stop c = false /\ free_of stop s = true.
Proof.
  simpl. intros [Hc Hs]%andb_true_iff. by apply negb_true_iff in Hc.
Qed.

Lemma prefix_slash_free s :
  free_of (one_of ":/?#") s = true -> String.prefix "/" s = false.
Proof.
  destruct s as [|c s]; [reflexivity|].
  intros [Hc _]%free_of_cons. apply one_of_slash in Hc.
  rewrite prefix_cons. destruct (ascii_dec "/" c) as [<-|_]; [congruence|reflexivity].
Qed.

(** Resolving a reference that is a bare relative path: the scheme and the
authority are the base's, the base's query and fragment are dropped. *)
Lemma resolve_relative_path base rel :
  free_of (one_of ":/?#") rel = true -> rel <> "" ->
  resolve base rel =
  recompose {| scheme := scheme (parse base);
               authority := authority (parse base);
               path := remove_dot_segments (merge (parse base) rel);
               query := None; fragment := None |}.
Proof.
  intros Hfree Hne. unfold resolve. rewrite (parse_free rel Hfree).
  unfold transform, path_only. simpl.
  rewrite (proj2 (String.eqb_neq rel "") Hne).
  by rewrite (prefix_slash_free rel Hfree).
Qed.

Lemma m3u8_free stream :
  free_of (one_of ":/?#") stream = true ->
  free_of (one_of ":/?#") (stream ++ ".m3u8") = true.
Proof. intros H. rewrite free_of_app, H. reflexivity. Qed.

Lemma m3u8_not_empty stream : stream ++ ".m3u8" <> "".
Proof. destruct stream; discriminate. Qed.

Lemma m3u8_not_dot stream : stream ++ ".m3u8" <> ".".
Proof. destruct stream as [|c [|c' s]]; discriminate. Qed.

Lemma m3u8_not_dotdot stream : stream ++ ".m3u8" <> "..".
Proof. destruct stream as [|c [|c' [|c'' s]]]; discriminate. Qed.

Lemma remove_dots_step n input out :
  remove_dots (S n) input out =
  if String.eqb input "" then String.concat "" (List.rev out)
  else if String.prefix "../" input then remove_dots n (drop_chars 3 input) out
  else if String.prefix "./" input then remove_dots n (drop_chars 2 input) out
  else if String.prefix "/./" input then remove_dots n (drop_chars 2 input) out
  else if String.eqb input "/." then remove_dots n "/" out
  else if String.prefix "/../" input
       then remove_dots n (drop_chars 3 input) (List.tl out)
  else if String.eqb input "/.." then remove_dots n "/" (List.tl out)
  else if String.eqb input "." || String.eqb input ".." then remove_dots n "" out
  else let (seg, r) := first_segment input in remove_dots n r (seg :: out).
Proof. reflexivity. Qed.

Lemma prefix_dot_slash_free s :
  free_of (one_of "/") s = true -> String.prefix "./" s = false.
Proof.
  destruct s as [|c [|c' s]]; try reflexivity.
  - intros _. rewrite prefix_cons. by destruct (ascii_dec "." c).
  - intros [_ [Hc' _]%free_of_cons]%free_of_cons.
    rewrite !prefix_cons.
    destruct (ascii_dec "." c); [|reflexivity].
    destruct (ascii_dec "/" c') as [<-|]; [discriminate|reflexivity].
Qed.

Lemma prefix_dotdot_slash_free s :
  free_of (one_of "/") s = true -> String.prefix "../" s = false.
Proof.
  destruct s as [|c [|c' [|c'' s]]]; try reflexivity.
  - intros _. rewrite prefix_cons. by destruct (ascii_dec "." c).
  - intros _. rewrite !prefix_cons.
    destruct (ascii_dec "." c); [|reflexivity]. by destruct (ascii_dec "." c').
  - intros [_ [_ [Hc _]%free_of_cons]%free_of_cons]%free_of_cons.
    rewrite !prefix_cons.
    destruct (ascii_dec "." c); [|reflexivity].
    destruct (ascii_dec "." c'); [|reflexivity].
    destruct (ascii_dec "/" c'') as [<-|]; [discriminate|reflexivity].
Qed.

(** A single clean segment under the root path is left as it is. *)
Lemma remove_dot_segments_single s :
  free_of (one_of "/") s = true -> s <> "." -> s <> ".." ->
  remove_dot_segments (String "/" s) = String "/" s.
Proof.
  intros Hfree Hdot Hdotdot. unfold remove_dot_segments.
  change (String.length (String "/" s)) with (S (String.length s)).
  rewrite remove_dots_step.
  change (String.eqb (String "/" s) "") with false.
  change (String.prefix "../" (String "/" s)) with false.
  change (String.prefix "./" (String "/" s)) with false.
  change (String.prefix "/./" (String "/" s)) with (String.prefix "./" s).
  rewrite (prefix_dot_slash_free s Hfree).
  change (String.eqb (String "/" s) "/.") with (String.eqb s ".").
  rewrite (proj2 (String.eqb_neq s ".") Hdot).
  change (String.prefix "/../" (String "/" s)) with (String.prefix "../" s).
  rewrite (prefix_dotdot_slash_free s Hfree).
  change (String.eqb (String "/" s) "/..") with (String.eqb s "..").
  rewrite (proj2 (String.eqb_neq s "..") Hdotdot).
  change (String.eqb (String "/" s) ".") with false.
  change (String.eqb (String "/" s) "..") with false.
  unfold first_segment. rewrite (break_free _ s Hfree).
  simpl. reflexivity.
Qed.

Lemma parse_root scheme host tail :
  free_of (one_of ":/?#") scheme = true -> scheme <> "" ->
  free_of (one_of "/?#") host = true ->
  free_of (one_of "?#") tail = true ->
  (tail = "" \/ exists p, tail = String "/" p) ->
  parse (scheme ++ "://" ++ host ++ tail) =
  {| scheme := Some scheme; authority := Some host; path := tail;
     query := None; fragment := None |}.
Proof.
  intros Hs Hne Hh Ht Htail. unfold parse.
  change (scheme ++ "://" ++ host ++ tail)
    with (scheme ++ String ":" (String "/" (String "/" (host ++ tail)))).
  rewrite (break_at _ scheme ":" _ Hs eq_refl).
  rewrite (proj2 (String.eqb_neq scheme "") Hne).
  assert (break (one_of "/?#") (host ++ tail) = (host, tail)) as ->.
  { destruct Htail as [->|[p ->]].
    - rewrite append_nil_r. by apply break_free.
    - by apply break_at. }
  rewrite (break_free _ tail Ht). reflexivity.
Qed.

Lemma list_ascii_of_string_app a b :
  list_ascii_of_string (a ++ b) =
  (list_ascii_of_string a ++ list_ascii_of_string b)%list.
Proof.
  induction a as [|c a IH]; [reflexivity|].
  rewrite append_cons. simpl. by rewrite IH.
Qed.

Lemma reverse_string_involutive s : reverse_string (reverse_string s) = s.
Proof.
  unfold reverse_string.
  rewrite list_ascii_of_string_of_list_ascii, List.rev_involutive.
  apply string_of_list_ascii_of_string.
Qed.

Lemma reverse_string_snoc body c :
  reverse_string (body ++ String c "") = String c (reverse_string body).
Proof.
  unfold reverse_string. rewrite list_ascii_of_string_app. simpl.
  by rewrite List.rev_unit.
Qed.

Lemma dir_snoc segs : exists body, dir segs = body ++ "/".
Proof.
  induction segs as [|seg segs [body IH]]; simpl.
  - by exists "".
  - exists ("/" ++ seg ++ body). rewrite IH.
    by rewrite !append_assoc.
Qed.

Lemma dir_cons segs : exists p, dir segs = String "/" p.
Proof. destruct segs; simpl; eexists; reflexivity. Qed.

Lemma clean_segment_spec seg :
  clean_segment seg = true ->
  free_of (one_of "/?#") seg = true /\ seg <> "." /\ seg <> "..".
Proof.
  unfold clean_segment.
  intros [[H1 H2]%andb_true_iff H3]%andb_true_iff.
  apply negb_true_iff, String.eqb_neq in H2.
  apply negb_true_iff, String.eqb_neq in H3. done.
Qed.

Lemma one_of_weaken_path c : one_of "?#" c = true -> one_of "/?#" c = true.
Proof.
  unfold one_of. simpl.
  destruct (Ascii.eqb c "?"), (Ascii.eqb c "#"), (Ascii.eqb c "/"); done.
Qed.

Lemma one_of_weaken_slash c : one_of "/" c = true -> one_of "/?#" c = true.
Proof.
  unfold one_of. simpl.
  destruct (Ascii.eqb c "?"), (Ascii.eqb c "#"), (Ascii.eqb c "/"); done.
Qed.

Lemma one_of_weaken_ref c : one_of "/?#" c = true -> one_of ":/?#" c = true.
Proof.
  unfold one_of. simpl.
  destruct (Ascii.eqb c "?"), (Ascii.eqb c "#"), (Ascii.eqb c "/"),
    (Ascii.eqb c ":"); done.
Qed.

Lemma dir_free segs :
  forallb clean_segment segs = true -> free_of (one_of "?#") (dir segs) = true.
Proof.
  induction segs as [|seg segs IH]; simpl; [done|].
  intros [Hseg Hsegs]%andb_true_iff.
  apply clean_segment_spec in Hseg as (Hfree & _ & _).
  rewrite !free_of_app. apply andb_true_iff. split; [reflexivity|].
  apply andb_true_iff. split; [|by apply IH].
  revert Hfree. apply free_of_weaken, one_of_weaken_path.
Qed.

Lemma merge_dir b segs rel :
  path b = dir segs -> merge b rel = dir segs ++ rel.
Proof.
  intros Hp. unfold merge. rewrite Hp.
  destruct (dir_snoc segs) as [body Hbody].
  assert (String.eqb (dir segs) "" = false) as He.
  { apply String.eqb_neq. destruct (dir_cons segs) as [p ->]. discriminate. }
  assert ((let (_, r) := break (one_of "/") (reverse_string (dir segs)) in
           reverse_string r ++ rel) = dir segs ++ rel) as Hm.
  { rewrite Hbody at 1. rewrite reverse_string_snoc. simpl.
    rewrite <- reverse_string_snoc, <- Hbody.
    by rewrite reverse_string_involutive. }
  destruct (authority b); [rewrite He|]; exact Hm.
Qed.

Lemma merge_no_path b host rel :
  authority b = Some host -> path b = "" -> merge b rel = "/" ++ rel.
Proof. intros Ha Hp. unfold merge. rewrite Ha, Hp. reflexivity. Qed.

Lemma append_slash_not (seg tail t : string) :
  free_of (one_of "/") t = true -> seg ++ String "/" tail <> t.
Proof.
  intros Ht H. rewrite <- H, free_of_app in Ht.
  apply andb_true_iff in Ht as [_ Ht]. discriminate.
Qed.

Lemma prefix_dot_slash_seg seg tail :
  free_of (one_of "/") seg = true -> seg <> "." ->
  String.prefix "./" (seg ++ String "/" tail) = false.
Proof.
  intros Hfree Hdot. destruct seg as [|c [|c' seg]].
  - reflexivity.
  - change (String c "" ++ String "/" tail) with (String c (String "/" tail)).
    rewrite prefix_cons. destruct (ascii_dec "." c) as [<-|]; [congruence|reflexivity].
  - rewrite !append_cons, !prefix_cons.
    apply free_of_cons in Hfree as [_ [Hc' _]%free_of_cons].
    destruct (ascii_dec "." c); [|reflexivity].
    destruct (ascii_dec "/" c') as [<-|]; [discriminate|reflexivity].
Qed.

Lemma prefix_dotdot_slash_seg seg tail :
  free_of (one_of "/") seg = true -> seg <> ".." ->
  String.prefix "../" (seg ++ String "/" tail) = false.
Proof.
  intros Hfree Hdot. destruct seg as [|c [|c' [|c'' seg]]].
  - reflexivity.
  - change (String c "" ++ String "/" tail) with (String c (String "/" tail)).
    rewrite !prefix_cons. destruct (ascii_dec "." c); reflexivity.
  - change (String c (String c' "") ++ String "/" tail)
      with (String c (String c' (String "/" tail))).
    rewrite !prefix_cons.
    destruct (ascii_dec "." c) as [<-|]; [|reflexivity].
    destruct (ascii_dec "." c') as [<-|]; [congruence|reflexivity].
  - rewrite !append_cons, !prefix_cons.
    apply free_of_cons in Hfree as [_ [_ [Hc _]%free_of_cons]%free_of_cons].
    destruct (ascii_dec "." c); [|reflexivity].
    destruct (ascii_dec "." c'); [|reflexivity].
    destruct (ascii_dec "/" c'') as [<-|]; [discriminate|reflexivity].
Qed.

(** One clean segment followed by more path moves to the output buffer. *)
Lemma remove_dots_segment n seg tail out :
  free_of (one_of "/") seg = true -> seg <> "." -> seg <> ".." ->
  remove_dots (S n) (String "/" (seg ++ String "/" tail)) out =
  remove_dots n (String "/" tail) (String "/" seg :: out).
Proof.
  intros Hfree Hdot Hdotdot. rewrite remove_dots_step.
  remember (seg ++ String "/" tail) as X eqn:EX.
  change (String.eqb (String "/" X) "") with false.
  change (String.prefix "../" (String "/" X)) with false.
  change (String.prefix "./" (String "/" X)) with false.
  change (String.prefix "/./" (String "/" X)) with (String.prefix "./" X).
  change (String.eqb (String "/" X) "/.") with (String.eqb X ".").
  change (String.prefix "/../" (String "/" X)) with (String.prefix "../" X).
  change (String.eqb (String "/" X) "/..") with (String.eqb X "..").
  change (String.eqb (String "/" X) ".") with false.
  change (String.eqb (String "/" X) "..") with false.
  assert (String.prefix "./" X = false) as ->
    by (subst X; by apply prefix_dot_slash_seg).
  assert (String.eqb X "." = false) as ->
    by (subst X; by apply String.eqb_neq, append_slash_not).
  assert (String.prefix "../" X = false) as ->
    by (subst X; by apply prefix_dotdot_slash_seg).
  assert (String.eqb X ".." = false) as ->
    by (subst X; by apply String.eqb_neq, append_slash_not).
  unfold first_segment. subst X. rewrite (break_at _ seg "/" tail Hfree eq_refl).
  reflexivity.
Qed.

(** The last clean segment ends the run. *)
Lemma remove_dots_last n s out :
  free_of (one_of "/") s = true -> s <> "." -> s <> ".." ->
  remove_dots (S (S n)) (String "/" s) out =
  String.concat "" (List.rev (String "/" s :: out)).
Proof.
  intros Hfree Hdot Hdotdot. rewrite remove_dots_step.
  change (String.eqb (String "/" s) "") with false.
  change (String.prefix "../" (String "/" s)) with false.
  change (String.prefix "./" (String "/" s)) with false.
  change (String.prefix "/./" (String "/" s)) with (String.prefix "./" s).
  rewrite (prefix_dot_slash_free s Hfree).
  change (String.eqb (String "/" s) "/.") with (String.eqb s ".").
  rewrite (proj2 (String.eqb_neq s ".") Hdot).
  change (String.prefix "/../" (String "/" s)) with (String.prefix "../" s).
  rewrite (prefix_dotdot_slash_free s Hfree).
  change (String.eqb (String "/" s) "/..") with (String.eqb s "..").
  rewrite (proj2 (String.eqb_neq s "..") Hdotdot).
  change (String.eqb (String "/" s) ".") with false.
  change (String.eqb (String "/" s) "..") with false.
  unfold first_segment. rewrite (break_free _ s Hfree).
  reflexivity.
Qed.

Lemma concat_no_separator l :
  String.concat "" l = fold_right String.append "" l.
Proof.
  induction l as [|x [|y l] IH]; [reflexivity| |].
  - simpl. by rewrite append_nil_r.
  - change (String.concat "" (x :: y :: l)) with (x ++ String.concat "" (y :: l)).
    by rewrite IH.
Qed.

Lemma fold_append_snoc l x :
  fold_right String.append "" (l ++ [x])%list = fold_right String.append "" l ++ x.
Proof.
  induction l as [|y l IH]; simpl.
  - by rewrite append_nil_r.
  - by rewrite IH, append_assoc.
Qed.

Lemma remove_dots_dir segs :
  forall n s out,
    forallb clean_segment segs = true ->
    free_of (one_of "/") s = true -> s <> "." -> s <> ".." ->
    remove_dots (length segs + S (S n)) (dir segs ++ s) out =
    fold_right String.append "" (List.rev out) ++ dir segs ++ s.
Proof.
  induction segs as [|seg segs IH]; intros n s out Hsegs Hfree Hdot Hdotdot.
  - change (dir [] ++ s) with (String "/" s). simpl length. simpl plus.
    rewrite (remove_dots_last n s out Hfree Hdot Hdotdot).
    rewrite concat_no_separator. simpl List.rev. apply fold_append_snoc.
  - simpl in Hsegs. apply andb_true_iff in Hsegs as [Hseg Hsegs].
    apply clean_segment_spec in Hseg as (Hsf & Hsd & Hsdd).
    assert (free_of (one_of "/") seg = true) as Hsf'.
    { revert Hsf. apply free_of_weaken, one_of_weaken_slash. }
    destruct (dir_cons segs) as [p Hp].
    assert (dir (seg :: segs) ++ s = String "/" (seg ++ String "/" (p ++ s))) as ->.
    { simpl dir. rewrite Hp.
      change ("/" ++ seg ++ String "/" p) with (String "/" (seg ++ String "/" p)).
      by rewrite append_cons, append_assoc. }
    change (length (seg :: segs) + S (S n)) with (S (length segs + S (S n))).
    rewrite (remove_dots_segment _ seg (p ++ s) out Hsf' Hsd Hsdd).
    change (String "/" (p ++ s)) with (String "/" p ++ s). rewrite <- Hp.
    rewrite (IH n s _ Hsegs Hfree Hdot Hdotdot).
    simpl List.rev. rewrite fold_append_snoc.
    simpl dir. rewrite !append_assoc. reflexivity.
Qed.

Lemma length_append a b :
  String.length (a ++ b) = String.length a + String.length b.
Proof.
  induction a as [|c a IH]; [reflexivity|]. rewrite append_cons. simpl. by rewrite IH.
Qed.

Lemma dir_fuel segs s :
  exists n, S (String.length (dir segs ++ s)) = length segs + S (S n).
Proof.
  induction segs as [|seg segs [n IH]].
  - exists (String.length s). reflexivity.
  - exists (String.length seg + n).
    change (dir (seg :: segs) ++ s) with (String "/" ((seg ++ dir segs) ++ s)).
    rewrite append_assoc. simpl String.length. rewrite length_append.
    simpl length. lia.
Qed.

(** A path of clean segments has no dot segment to remove. *)
Lemma remove_dot_segments_dir segs s :
  forallb clean_segment segs = true ->
  free_of (one_of "/") s = true -> s <> "." -> s <> ".." ->
  remove_dot_segments (dir segs ++ s) = dir segs ++ s.
Proof.
  intros Hsegs Hfree Hdot Hdotdot. unfold remove_dot_segments.
  destruct (dir_fuel segs s) as [n ->].
  by rewrite (remove_dots_dir segs n s [] Hsegs Hfree Hdot Hdotdot).
Qed.

Lemma m3u8_segment stream :
  free_of (one_of ":/?#") stream = true ->
  free_of (one_of "/") (stream ++ ".m3u8") = true.
Proof.
  intros H. apply m3u8_free in H. revert H.
  apply free_of_weaken. intros c Hc.
  apply one_of_weaken_ref, one_of_weaken_slash, Hc.
Qed.

(** Against a clean root that ends in a slash, the reference is appended. *)
Lemma resolve_under_directory sch host segs stream :
  free_of (one_of ":/?#") sch = true -> sch <> "" ->
  free_of (one_of "/?#") host = true ->
  forallb clean_segment segs = true ->
  free_of (one_of ":/?#") stream = true ->
  resolve (sch ++ "://" ++ host ++ dir segs) (stream ++ ".m3u8") =
  sch ++ "://" ++ host ++ dir segs ++ stream ++ ".m3u8".
Proof.
  intros Hs Hne Hh Hsegs Hst.
  rewrite (resolve_relative_path _ _ (m3u8_free _ Hst) (m3u8_not_empty _)).
  rewrite (parse_root sch host (dir segs) Hs Hne Hh (dir_free _ Hsegs)
             (or_intror (dir_cons segs))).
  cbn [Rfc3986.scheme Rfc3986.authority].
  rewrite (merge_dir {| Rfc3986.scheme := Some sch; authority := Some host;
                        path := dir segs; query := None; fragment := None |}
             segs _ eq_refl).
  rewrite (remove_dot_segments_dir segs _ Hsegs (m3u8_segment _ Hst)
             (m3u8_not_dot _) (m3u8_not_dotdot _)).
  unfold recompose. cbn [Rfc3986.scheme Rfc3986.authority Rfc3986.path Rfc3986.query Rfc3986.fragment].
  rewrite !append_assoc, !append_nil_r. reflexivity.
Qed.

(** Against a clean root without a path, the reference goes under the
root path. *)
Lemma resolve_under_host sch host stream :
  free_of (one_of ":/?#") sch = true -> sch <> "" ->
  free_of (one_of "/?#") host = true ->
  free_of (one_of ":/?#") stream = true ->
  resolve (sch ++ "://" ++ host) (stream ++ ".m3u8") =
  sch ++ "://" ++ host ++ "/" ++ stream ++ ".m3u8".
Proof.
  intros Hs Hne Hh Hst.
  assert (sch ++ "://" ++ host = sch ++ "://" ++ host ++ "") as ->
    by (by rewrite append_nil_r).
  rewrite (resolve_relative_path _ _ (m3u8_free _ Hst) (m3u8_not_empty _)).
  rewrite (parse_root sch host "" Hs Hne Hh eq_refl (or_introl eq_refl)).
  cbn [Rfc3986.scheme Rfc3986.authority].
  rewrite (merge_no_path {| Rfc3986.scheme := Some sch; authority := Some host;
                            path := ""; query := None; fragment := None |}
             host _ eq_refl eq_refl).
  change ("/" ++ stream ++ ".m3u8") with (String "/" (stream ++ ".m3u8")).
  rewrite (remove_dot_segments_single _ (m3u8_segment _ Hst)
             (m3u8_not_dot _) (m3u8_not_dotdot _)).
  unfold recompose. cbn [Rfc3986.scheme Rfc3986.authority Rfc3986.path Rfc3986.query Rfc3986.fragment].
  rewrite !append_assoc, !append_nil_r. reflexivity.
Qed.

Lemma first_segment_relative c s :
  c <> "/"%char -> first_segment (String c s) = break (one_of "/") (String c s).
Proof.
  intros Hc. unfold first_segment.
  destruct c as [[] [] [] [] [] [] [] []]; try reflexivity. congruence.
Qed.

(** Against the empty base, the reference is the result. *)
Lemma resolve_under_nothing stream :
  free_of (one_of ":/?#") stream = true ->
  resolve "" (stream ++ ".m3u8") = stream ++ ".m3u8".
Proof.
  intros Hst.
  rewrite (resolve_relative_path _ _ (m3u8_free _ Hst) (m3u8_not_empty _)).
  change (parse "") with (path_only ""). unfold path_only. cbn [Rfc3986.scheme Rfc3986.authority].
  change (merge _ (stream ++ ".m3u8")) with (stream ++ ".m3u8").
  assert (remove_dot_segments (stream ++ ".m3u8") = stream ++ ".m3u8") as ->.
  { pose proof (m3u8_segment _ Hst) as Hfree.
    pose proof (m3u8_not_dot stream) as Hdot.
    pose proof (m3u8_not_dotdot stream) as Hdotdot.
    pose proof (m3u8_not_empty stream) as Hne.
    pose proof (prefix_slash_free _ (m3u8_free _ Hst)) as Hslash.
    remember (stream ++ ".m3u8") as s eqn:Es. clear Es Hst stream.
    destruct s as [|c s]; [congruence|].
    unfold remove_dot_segments. simpl String.length.
    rewrite remove_dots_step.
    rewrite (proj2 (String.eqb_neq _ "") Hne).
    rewrite (prefix_dotdot_slash_free _ Hfree), (prefix_dot_slash_free _ Hfree).
    rewrite prefix_cons in Hslash.
    assert (c <> "/"%char) as Hc.
    { intros ->. discriminate. }
    assert (String.prefix "/./" (String c s) = false) as ->.
    { rewrite prefix_cons. destruct (ascii_dec "/" c); [congruence|reflexivity]. }
    assert (String.eqb (String c s) "/." = false) as ->.
    { apply String.eqb_neq. congruence. }
    assert (String.prefix "/../" (String c s) = false) as ->.
    { rewrite prefix_cons. destruct (ascii_dec "/" c); [congruence|reflexivity]. }
    assert (String.eqb (String c s) "/.." = false) as ->.
    { apply String.eqb_neq. congruence. }
    rewrite (proj2 (String.eqb_neq _ ".") Hdot), (proj2 (String.eqb_neq _ "..") Hdotdot).
    cbn [orb].
    rewrite (first_segment_relative c s Hc), (break_free _ _ Hfree).
    rewrite remove_dots_step. reflexivity. }
  unfold recompose. cbn [Rfc3986.scheme Rfc3986.authority Rfc3986.path Rfc3986.query Rfc3986.fragment].
  rewrite !append_nil_r. reflexivity.
Qed.
End Rfc3986Facts.

(** C5, as amended: a string [url] of the job, empty or not, is returned
unchanged whatever [streamRootUrl] is; for any other [url] the result is the
RFC 3986 resolution of the stream id followed by [.m3u8] against the root the
caller supplied (against the empty base when none was supplied), the
resolver being called once with exactly these two arguments.  For a
stream id without delimiters that resolution keeps the scheme and authority
of the root, drops its query and fragment, and puts the reference in place of
the last segment of the root's path: under a clean root that ends in a slash
the reference is appended to the root, under a root without a path it goes
under the root path, and under no root it stands alone.  The call touches
neither the state nor the network. *)
Theorem url_resolver :
  (forall (Url_resolve : string -> string -> string) stream s root,
      url Url_resolve stream (JS.str s) root = s) /\
  (forall (Url_resolve : string -> string -> string) stream u root,
      JS.typeof u <> "string" ->
      url Url_resolve stream u root =
      Url_resolve (or_empty root) (stream ++ ".m3u8")) /\
  (forall stream u root,
      JS.typeof u <> "string" ->
      url Rfc3986.resolve stream u (Some root) =
      Rfc3986.resolve root (stream ++ ".m3u8")) /\
  (forall stream u,
      JS.typeof u <> "string" ->
      url Rfc3986.resolve stream u None = Rfc3986.resolve "" (stream ++ ".m3u8")) /\
  (forall stream u root,
      JS.typeof u <> "string" ->
      Rfc3986.free_of (Rfc3986.one_of ":/?#") stream = true ->
      url Rfc3986.resolve stream u (Some root) =
      Rfc3986.recompose
        {| Rfc3986.scheme := Rfc3986.scheme (Rfc3986.parse root);
           Rfc3986.authority := Rfc3986.authority (Rfc3986.parse root);
           Rfc3986.path :=
             Rfc3986.remove_dot_segments
               (Rfc3986.merge (Rfc3986.parse root) (stream ++ ".m3u8"));
           Rfc3986.query := None;
           Rfc3986.fragment := None |}) /\
  (forall sch host segs stream u,
      JS.typeof u <> "string" ->
      Rfc3986.free_of (Rfc3986.one_of ":/?#") sch = true -> sch <> "" ->
      Rfc3986.free_of (Rfc3986.one_of "/?#") host = true ->
      forallb Rfc3986.clean_segment segs = true ->
      Rfc3986.free_of (Rfc3986.one_of ":/?#") stream = true ->
      url Rfc3986.resolve stream u (Some (sch ++ "://" ++ host ++ Rfc3986.dir segs)) =
      sch ++ "://" ++ host ++ Rfc3986.dir segs ++ stream ++ ".m3u8") /\
  (forall sch host stream u,
      JS.typeof u <> "string" ->
      Rfc3986.free_of (Rfc3986.one_of ":/?#") sch = true -> sch <> "" ->
      Rfc3986.free_of (Rfc3986.one_of "/?#") host = true ->
      Rfc3986.free_of (Rfc3986.one_of ":/?#") stream = true ->
      url Rfc3986.resolve stream u (Some (sch ++ "://" ++ host)) =
      sch ++ "://" ++ host ++ "/" ++ stream ++ ".m3u8") /\
  (forall stream u,
      JS.typeof u <> "string" ->
      Rfc3986.free_of (Rfc3986.one_of ":/?#") stream = true ->
      url Rfc3986.resolve stream u None = stream ++ ".m3u8") /\
  url Rfc3986.resolve "s2" JS.undefined (Some "http://root/") = "http://root/s2.m3u8" /\
  (forall Url_resolve fetch getJob getJobs stream u root st,
      invoke Url_resolve fetch getJob getJobs (Call_url stream u root) st =
      (Fin (Returned (ReplyString (url Url_resolve stream u root))), st)).
Proof.
  assert (forall (Url_resolve : string -> string -> string) stream u root,
             JS.typeof u <> "string" ->
             url Url_resolve stream u root =
             Url_resolve (or_empty root) (stream ++ ".m3u8")) as Hurl.
  { intros Url_resolve stream u root Hty. destruct u; simpl in *; congruence. }
  split; [reflexivity|].
  split; [exact Hurl|].
  split; [intros stream u root Hty; by rewrite Hurl|].
  split; [intros stream u Hty; by rewrite Hurl|].
  split.
  { intros stream u root Hty Hst. rewrite Hurl by assumption. simpl or_empty.
    apply Rfc3986Facts.resolve_relative_path;
      [by apply Rfc3986Facts.m3u8_free|apply Rfc3986Facts.m3u8_not_empty]. }
  split.
  { intros sch host segs stream u Hty Hs Hne Hh Hsegs Hst.
    rewrite Hurl by assumption. simpl or_empty.
    by apply Rfc3986Facts.resolve_under_directory. }
  split.
  { intros sch host stream u Hty Hs Hne Hh Hst.
    rewrite Hurl by assumption. simpl or_empty.
    by apply Rfc3986Facts.resolve_under_host. }
  split.
  { intros stream u Hty Hst. rewrite Hurl by assumption. simpl or_empty.
    by apply Rfc3986Facts.resolve_under_nothing. }
  split; [vm_compute; reflexivity|].
  reflexivity.
Qed.

(** ** The resolvers on concrete worlds *)

Lemma live_probe_failure_witness :
  (forall e,
      Sample.unreachable (trace (createResolvers []))
        (videoUrl_of Rfc3986.resolve (transformJob Sample.raw3) (Some "http://root/"))
      = Thrown e ->
      exists st',
        run (live Rfc3986.resolve Sample.unreachable (transformJob Sample.raw3)
               (Some "http://root/")) (createResolvers [])
        = (Returned (JS.boolean false), st') /\
        Job.id (transformJob Sample.raw3) ∈ DEAD_JOBS st' /\
        DEAD_JOBS st' =
          {[ Job.id (transformJob Sample.raw3) ]} ∪ DEAD_JOBS (createResolvers [])) /\
  (forall res,
      Sample.unreachable (trace (createResolvers []))
        (videoUrl_of Rfc3986.resolve (transformJob Sample.raw3) (Some "http://root/"))
      = Returned res ->
      status res <> 200%Z ->
      exists st',
        run (live Rfc3986.resolve Sample.unreachable (transformJob Sample.raw3)
               (Some "http://root/")) (createResolvers [])
        = (Returned (JS.boolean false), st') /\
        DEAD_JOBS st' = DEAD_JOBS (createResolvers [])).
Proof.
  apply (live_probe_failure Rfc3986.resolve Sample.unreachable
           (transformJob Sample.raw3) (Some "http://root/") (createResolvers [])).
  - simpl. discriminate.
  - simpl. apply not_elem_of_empty.
Defined.

Lemma live_probe_failure_counterexample :
  Sample.answers 404 (trace (createResolvers []))
    (videoUrl_of Rfc3986.resolve (transformJob Sample.raw2) (Some "http://root/"))
  = Returned {| status := 404 |} /\
  (run (live Rfc3986.resolve (Sample.answers 404) (transformJob Sample.raw2)
          (Some "http://root/")) (createResolvers [])).1
  = Returned (JS.boolean false) /\
  Job.id (transformJob Sample.raw2)
    ∉ DEAD_JOBS (run (live Rfc3986.resolve (Sample.answers 404)
                        (transformJob Sample.raw2) (Some "http://root/"))
                     (createResolvers [])).2.
Proof.
  split; [reflexivity|]. split; [reflexivity|].
  simpl. apply not_elem_of_empty.
Qed.

Lemma live_non200_not_cached_witness :
  exists st',
    run (live Rfc3986.resolve (Sample.answers 404) (transformJob Sample.raw2)
           (Some "http://root/")) (createResolvers [])
    = (Returned (JS.boolean false), st') /\
    DEAD_JOBS st' = DEAD_JOBS (createResolvers []) /\
    (Job.id (transformJob Sample.raw2) ∉ DEAD_JOBS st') /\
    trace st' =
      (trace (createResolvers []) ++
       [Fetch (videoUrl_of Rfc3986.resolve (transformJob Sample.raw2)
                 (Some "http://root/"))])%list /\
    forall later root',
      DEAD_JOBS later = DEAD_JOBS st' ->
      trace (run (live Rfc3986.resolve (Sample.answers 404)
                    (transformJob Sample.raw2) root') later).2 =
      (trace later ++
       [Fetch (videoUrl_of Rfc3986.resolve (transformJob Sample.raw2) root')])%list.
Proof.
  apply (live_non200_not_cached Rfc3986.resolve (Sample.answers 404)
           (transformJob Sample.raw2) (Some "http://root/") (createResolvers [])
           {| status := 404 |}).
  - simpl. discriminate.
  - simpl. apply not_elem_of_empty.
  - reflexivity.
  - simpl. discriminate.
Defined.

Lemma url_resolver_counterexample :
  url Rfc3986.resolve "s2" (JS.str "") (Some "http://root/") = "" /\
  Rfc3986.resolve "http://root/" ("s2" ++ ".m3u8") = "http://root/s2.m3u8" /\
  url Rfc3986.resolve "s2" (JS.str "") (Some "http://root/")
    <> Rfc3986.resolve "http://root/" ("s2" ++ ".m3u8").
Proof.
  split; [reflexivity|]. split; [vm_compute; reflexivity|].
  vm_compute. discriminate.
Qed.

Lemma live_of_dead_job_witness :
  run (live Rfc3986.resolve Sample.unreachable (transformJob Sample.raw3)
         (Some "http://elsewhere/"))
      ({| DEAD_JOBS := {[ 3%Z ]} ∪ ∅; trace := [Fetch "http://root/s3.m3u8"] |},
       [Fin (Returned (ReplyValue (JS.boolean false)))]).1
  = (Returned
       (if String.eqb (JS.typeof (Job.live (transformJob Sample.raw3))) "boolean"
        then Job.live (transformJob Sample.raw3) else JS.boolean false),
     ({| DEAD_JOBS := {[ 3%Z ]} ∪ ∅; trace := [Fetch "http://root/s3.m3u8"] |},
      [Fin (Returned (ReplyValue (JS.boolean false)))]).1).
Proof.
  apply (live_of_dead_job Rfc3986.resolve Sample.unreachable
           (Sample.lookup [Sample.raw3]) (Sample.serves [Sample.raw3]) []
           ({| DEAD_JOBS := {[ 3%Z ]} ∪ ∅; trace := [Fetch "http://root/s3.m3u8"] |},
            [Fin (Returned (ReplyValue (JS.boolean false)))])).
  - eapply rtc_l.
    { apply (step_invoke _ _ _ _
               (Call_live (transformJob Sample.raw3) (Some "http://root/"))).
      reflexivity. }
    eapply rtc_l.
    { eapply (step_resume _ _ _ _ 0%nat); reflexivity. }
    apply rtc_refl.
  - simpl. apply elem_of_union_l, elem_of_singleton. reflexivity.
  - apply rtc_refl.
Defined.

Lemma live_of_dead_job_counterexample :
  3%Z ∈ DEAD_JOBS
         (run (live Rfc3986.resolve Sample.unreachable (transformJob Sample.raw3)
                 (Some "http://root/")) (createResolvers [])).2 /\
  (run (live Rfc3986.resolve Sample.unreachable
          {| Job.type := "VideoJob"; Job.id := 3; Job.broadcaster := "0xB";
             Job.profiles := [transformProfile Sample.option1];
             Job.stream := "s3"; Job.transcoder := "0xT";
             Job.live := JS.boolean true;
             Job.url := JS.str "http://good/s3.m3u8" |}
          (Some "http://root/"))
       (run (live Rfc3986.resolve Sample.unreachable (transformJob Sample.raw3)
               (Some "http://root/")) (createResolvers [])).2).1
  = Returned (JS.boolean true).
Proof.
  split; [|reflexivity].
  simpl. apply elem_of_union_l, elem_of_singleton. reflexivity.
Qed.

Lemma DEAD_JOBS_monotonic_witness :
  DEAD_JOBS (createResolvers []) = ∅ /\
  DEAD_JOBS (fresh []).1 ⊆
    DEAD_JOBS
      ({| DEAD_JOBS := {[ 3%Z ]} ∪ ∅; trace := [Fetch "http://root/s3.m3u8"] |},
       [Fin (Returned (ReplyValue (JS.boolean false)))]).1 /\
  (forall c,
      DEAD_JOBS
        ({| DEAD_JOBS := {[ 3%Z ]} ∪ ∅; trace := [Fetch "http://root/s3.m3u8"] |},
         [Fin (Returned (ReplyValue (JS.boolean false)))]).1 ⊆
      DEAD_JOBS
        (run (invoke Rfc3986.resolve Sample.unreachable
                (Sample.lookup [Sample.raw3]) (Sample.serves [Sample.raw3]) c)
           ({| DEAD_JOBS := {[ 3%Z ]} ∪ ∅; trace := [Fetch "http://root/s3.m3u8"] |},
            [Fin (Returned (ReplyValue (JS.boolean false)))]).1).2).
Proof.
  apply (DEAD_JOBS_monotonic Rfc3986.resolve Sample.unreachable
           (Sample.lookup [Sample.raw3]) (Sample.serves [Sample.raw3]) []
           (fresh [])).
  - apply rtc_refl.
  - eapply rtc_l.
    { apply (step_invoke _ _ _ _
               (Call_live (transformJob Sample.raw3) (Some "http://root/"))).
      reflexivity. }
    eapply rtc_l.
    { eapply (step_resume _ _ _ _ 0%nat); reflexivity. }
    apply rtc_refl.
Defined.

Lemma jobs_returns_live_or_all_witness :
  exists all st',
    run (jobs Rfc3986.resolve (Sample.only_under "http://root/s2")
           (Sample.serves [Sample.raw1; Sample.raw2; Sample.raw3])
           {| JobsArgs.dead := true; JobsArgs.streamRootUrl := Some "http://root/";
              JobsArgs.broadcaster := None |}) (createResolvers [])
    = (Returned all, st') /\
    Forall2 decorates all (map transformJob [Sample.raw1; Sample.raw2; Sample.raw3]) /\
    (forall i raw,
        [Sample.raw1; Sample.raw2; Sample.raw3] !! i = Some raw ->
        exists d,
          all !! i = Some d /\
          decorates d (transformJob raw) /\
          Job.url d =
            JS.str (Rfc3986.resolve (or_empty (Some "http://root/"))
                      (streamId raw ++ ".m3u8")) /\
          Job.live d =
            JS.boolean
              match transcodingOptions raw with
              | [] => false
              | _ :: _ =>
                  if bool_decide (jobId raw ∈ DEAD_JOBS (createResolvers []))
                  then false
                  else
                    match
                      Sample.only_under "http://root/s2"
                        (asked_before Rfc3986.resolve (Some "http://root/")
                           (createResolvers []) None
                           (map transformJob [Sample.raw1; Sample.raw2; Sample.raw3])
                           i)
                        (Rfc3986.resolve (or_empty (Some "http://root/"))
                           (streamId raw ++ ".m3u8"))
                    with
                    | Returned res => (status res =? 200)%Z
                    | Thrown _ => false
                    end
              end) /\
    run (jobs Rfc3986.resolve (Sample.only_under "http://root/s2")
           (Sample.serves [Sample.raw1; Sample.raw2; Sample.raw3])
           {| JobsArgs.dead := false; JobsArgs.streamRootUrl := Some "http://root/";
              JobsArgs.broadcaster := None |}) (createResolvers [])
    = (Returned (filter (fun x => Job.live x = JS.boolean true) all), st') /\
    filter (fun x => Job.live x = JS.boolean true) all `sublist_of` all.
Proof.
  apply (jobs_returns_live_or_all Rfc3986.resolve (Sample.only_under "http://root/s2")
           (Sample.serves [Sample.raw1; Sample.raw2; Sample.raw3])
           (createResolvers []) (Some "http://root/") None
           [Sample.raw1; Sample.raw2; Sample.raw3]).
  reflexivity.
Defined.

Lemma jobs_test_job_not_probed_witness :
  exists all st',
    (forall dead,
        run (jobs Rfc3986.resolve (Sample.only_under "http://root/s2")
               (Sample.serves [Sample.raw1; Sample.raw2; Sample.raw3])
               {| JobsArgs.dead := dead; JobsArgs.streamRootUrl := Some "http://root/";
                  JobsArgs.broadcaster := None |}) (createResolvers [])
        = (Returned (if dead then all
                     else filter (fun x => Job.live x = JS.boolean true) all),
           st')) /\
    Forall2 (fun d j => decorates d j /\
                        (Job.type j = "TestJob" -> Job.live d = JS.boolean false))
            all (map transformJob [Sample.raw1; Sample.raw2; Sample.raw3]) /\
    trace st' =
      (trace (createResolvers []) ++
       GetJobs None ::
       map (fun j => Fetch (videoUrl_of Rfc3986.resolve j (Some "http://root/")))
           (filter (fun j => Job.type j <> "TestJob" /\
                             Job.id j ∉ DEAD_JOBS (createResolvers []))
                   (map transformJob [Sample.raw1; Sample.raw2; Sample.raw3])))%list.
Proof.
  apply (jobs_test_job_not_probed Rfc3986.resolve (Sample.only_under "http://root/s2")
           (Sample.serves [Sample.raw1; Sample.raw2; Sample.raw3])
           (createResolvers []) (Some "http://root/") None
           [Sample.raw1; Sample.raw2; Sample.raw3]).
  reflexivity.
Defined.

(** ** The documented scenarios *)

Example scenario_test_job :
  transformJob Sample.raw1 =
  {| Job.type := "TestJob"; Job.id := 1; Job.broadcaster := "0xB";
     Job.profiles := []; Job.stream := "s1"; Job.transcoder := "0xT";
     Job.live := JS.undefined; Job.url := JS.undefined |}.
Proof. reflexivity. Qed.

Example scenario_test_job_listed_only_when_dead :
  (run (jobs Rfc3986.resolve (Sample.answers 200) (Sample.serves [Sample.raw1])
          {| JobsArgs.dead := true; JobsArgs.streamRootUrl := Some "http://root/";
             JobsArgs.broadcaster := None |}) (createResolvers [])).1
  = Returned
      [ {| Job.type := "TestJob"; Job.id := 1; Job.broadcaster := "0xB";
           Job.profiles := []; Job.stream := "s1"; Job.transcoder := "0xT";
           Job.live := JS.boolean false;
           Job.url := JS.str "http://root/s1.m3u8" |} ] /\
  (run (jobs Rfc3986.resolve (Sample.answers 200) (Sample.serves [Sample.raw1])
          {| JobsArgs.dead := false; JobsArgs.streamRootUrl := Some "http://root/";
             JobsArgs.broadcaster := None |}) (createResolvers [])).1
  = Returned [].
Proof. split; vm_compute; reflexivity. Qed.

Example scenario_video_profile :
  Job.type (transformJob Sample.raw2) = "VideoJob" /\
  Job.profiles (transformJob Sample.raw2) =
  [ videoProfile (JS.str "h1") (JS.str "P1") (JS.str "1000k") (JS.number 30)
      (JS.str "1280x720") ].
Proof.
  split; [reflexivity|]. simpl. unfold Sample.option1.
  by rewrite transformProfile_option.
Qed.

Example scenario_probe_200 :
  url Rfc3986.resolve "s2" JS.undefined (Some "http://root/") = "http://root/s2.m3u8" /\
  run (live Rfc3986.resolve (Sample.answers 200) (transformJob Sample.raw2)
         (Some "http://root/")) (createResolvers [])
  = (Returned (JS.boolean true),
     {| DEAD_JOBS := ∅; trace := [Fetch "http://root/s2.m3u8"] |}).
Proof. split; vm_compute; reflexivity. Qed.

Example scenario_probe_throws :
  run (live Rfc3986.resolve Sample.unreachable (transformJob Sample.raw3)
         (Some "http://root/")) (createResolvers [])
  = (Returned (JS.boolean false),
     {| DEAD_JOBS := {[ 3%Z ]} ∪ ∅; trace := [Fetch "http://root/s3.m3u8"] |}) /\
  run (live Rfc3986.resolve Sample.unreachable (transformJob Sample.raw3)
         (Some "http://any.other/root/"))
      {| DEAD_JOBS := {[ 3%Z ]} ∪ ∅; trace := [Fetch "http://root/s3.m3u8"] |}
  = (Returned (JS.boolean false),
     {| DEAD_JOBS := {[ 3%Z ]} ∪ ∅; trace := [Fetch "http://root/s3.m3u8"] |}).
Proof. split; vm_compute; reflexivity. Qed.

(** The default roots of the schema, resolved as RFC 3986 prescribes. *)
Example default_root_resolution :
  url Rfc3986.resolve "x36xhzz" JS.undefined (Some Schema.DEFAULT_STREAM_ROOT)
    = "http://streams.livepeer.org/x36xhzz.m3u8" /\
  url Rfc3986.resolve "x36xhzz" JS.undefined None = "x36xhzz.m3u8".
Proof. split; vm_compute; reflexivity. Qed.

(** ** Further facts about the normalizer and the schema *)

(** X13: whatever attributes a transcoding option has, its profile has the
same attributes with the same values, except that [hash] is gone and [id] is
there. *)
Theorem transformProfile_attributes (o : JS.object) :
  dom (transformProfile o) = {[ "id" ]} ∪ (dom o ∖ {[ "hash" ]}) /\
  transformProfile o !! "hash" = None /\
  (forall k, k <> "id" -> k <> "hash" -> transformProfile o !! k = o !! k).
Proof.
  split; [|split].
  - unfold transformProfile, JS.literal_spread, JS.rest_without.
    rewrite dom_union_L, dom_delete_L, dom_singleton_L.
    apply (comm_L (∪)).
  - apply transformProfile_hash.
  - intros k. apply transformProfile_other.
Qed.

(** X14: the [id] of a profile is the option's [hash] only when the option
has no [id] of its own: an own [id] is kept, whatever the hash; and an option
with neither gets the [id] [undefined]. *)
Theorem transformProfile_id_cases (o : JS.object) :
  (forall v, o !! "id" = Some v -> transformProfile o !! "id" = Some v) /\
  (forall h, o !! "id" = None -> o !! "hash" = Some h ->
             transformProfile o !! "id" = Some h) /\
  (o !! "id" = None -> o !! "hash" = None ->
   transformProfile o !! "id" = Some JS.undefined).
Proof.
  split; [|split].
  - intros v. apply transformProfile_own_id.
  - intros h Hid Hh. rewrite transformProfile_id by assumption.
    unfold JS.get. by rewrite Hh.
  - intros Hid Hh. rewrite transformProfile_id by assumption.
    unfold JS.get. by rewrite Hh.
Qed.

(** X15: the type name the interface resolves for a normalized job names a
type the schema declares: an object type that implements [Job], with every
field of the interface at the interface's type.  That type has the fields
[live] and [url] exactly when the record has transcoding options, so the
schema never asks for the liveness of a test job; [live] is a non-null
boolean wired to the liveness resolver and [url] a non-null string wired to
the url resolver, each with the one argument [streamRootUrl]. *)
Theorem resolved_type_is_declared (raw : RawJob) (streamRoot : option string) :
  exists t,
    Schema.type_named (Schema.createSchema streamRoot)
      (resolveType (transformJob raw)) = Some t /\
    Schema.kind t = Schema.ObjectType /\
    Schema.interfaces t = [Schema.name Schema.Job] /\
    Forall (fun f => exists f',
                Schema.field_named t (Schema.field_name f) = Some f' /\
                Schema.field_type f' = Schema.field_type f /\
                Schema.resolve f' = Schema.no_resolver)
           (Schema.fields Schema.Job) /\
    (is_Some (Schema.field_named t "live") <-> transcodingOptions raw <> []) /\
    (is_Some (Schema.field_named t "url") <-> transcodingOptions raw <> []) /\
    (forall f, Schema.field_named t "live" = Some f ->
               Schema.resolve f = Schema.VideoJob_fields_live /\
               Schema.field_type f = Schema.GraphQLNonNull Schema.GraphQLBoolean /\
               map Schema.arg_name (Schema.args f) = ["streamRootUrl"]) /\
    (forall f, Schema.field_named t "url" = Some f ->
               Schema.resolve f = Schema.VideoJob_fields_url /\
               Schema.field_type f = Schema.GraphQLNonNull Schema.GraphQLString /\
               map Schema.arg_name (Schema.args f) = ["streamRootUrl"]).
Proof.
  unfold resolveType. simpl.
  destruct (transcodingOptions raw) as [|o os]; simpl.
  - exists Schema.TestJob. split; [reflexivity|]. split; [reflexivity|].
    split; [reflexivity|]. split.
    { repeat constructor; eexists; repeat split; reflexivity. }
    split; [|split; [|split]].
    + split; [intros [f Hf]; discriminate|congruence].
    + split; [intros [f Hf]; discriminate|congruence].
    + discriminate.
    + discriminate.
  - exists Schema.VideoJob. split; [reflexivity|]. split; [reflexivity|].
    split; [reflexivity|]. split.
    { repeat constructor; eexists; repeat split; reflexivity. }
    split; [|split; [|split]].
    + split; [discriminate|]. intros _. eexists. reflexivity.
    + split; [discriminate|]. intros _. eexists. reflexivity.
    + intros f [= <-]. repeat split.
    + intros f [= <-]. repeat split.
Qed.

(** ** The further facts on concrete worlds *)

Lemma live_true_iff_200_witness :
  ((run (live Rfc3986.resolve (Sample.answers 200) (transformJob Sample.raw2)
           (Some "http://root/")) (createResolvers [])).1
   = Returned (JS.boolean true) <->
   exists res,
     Sample.answers 200 (trace (createResolvers []))
       (videoUrl_of Rfc3986.resolve (transformJob Sample.raw2) (Some "http://root/"))
     = Returned res /\ status res = 200%Z) /\
  ((run (live Rfc3986.resolve (Sample.answers 200) (transformJob Sample.raw2)
           (Some "http://root/")) (createResolvers [])).1
   = Returned (JS.boolean true) ->
   DEAD_JOBS
     (run (live Rfc3986.resolve (Sample.answers 200) (transformJob Sample.raw2)
             (Some "http://root/")) (createResolvers [])).2
   = DEAD_JOBS (createResolvers []) /\
   forall root',
     trace
       (run (live Rfc3986.resolve (Sample.answers 200) (transformJob Sample.raw2) root')
          (run (live Rfc3986.resolve (Sample.answers 200) (transformJob Sample.raw2)
                  (Some "http://root/")) (createResolvers [])).2).2
     = (trace
          (run (live Rfc3986.resolve (Sample.answers 200) (transformJob Sample.raw2)
                  (Some "http://root/")) (createResolvers [])).2 ++
        [Fetch (videoUrl_of Rfc3986.resolve (transformJob Sample.raw2) root')])%list).
Proof.
  apply (live_true_iff_200 Rfc3986.resolve (Sample.answers 200)
           (transformJob Sample.raw2) (Some "http://root/") (createResolvers [])).
  - simpl. discriminate.
  - simpl. apply not_elem_of_empty.
Defined.

Lemma live_rejected_never_retried_witness :
  run (live Rfc3986.resolve Sample.unreachable (transformJob Sample.raw3)
         (Some "http://elsewhere/"))
      (run (live Rfc3986.resolve Sample.unreachable (transformJob Sample.raw3)
              (Some "http://root/")) (createResolvers [])).2
  = (Returned
       (if String.eqb (JS.typeof (Job.live (transformJob Sample.raw3))) "boolean"
        then Job.live (transformJob Sample.raw3) else JS.boolean false),
     (run (live Rfc3986.resolve Sample.unreachable (transformJob Sample.raw3)
             (Some "http://root/")) (createResolvers [])).2).
Proof.
  apply (live_rejected_never_retried Rfc3986.resolve Sample.unreachable
           (transformJob Sample.raw3) (Some "http://root/") (createResolvers [])
           "network timeout").
  - simpl. discriminate.
  - simpl. apply not_elem_of_empty.
  - reflexivity.
  - reflexivity.
Defined.

Lemma jobs_returns_derived_fields_witness :
  exists out st',
    run (jobs Rfc3986.resolve (Sample.only_under "http://root/s2")
           (Sample.serves [Sample.raw1; Sample.raw2; Sample.raw3])
           {| JobsArgs.dead := false; JobsArgs.streamRootUrl := Some "http://root/";
              JobsArgs.broadcaster := None |}) (createResolvers [])
    = (Returned out, st') /\
    Forall (fun d =>
              (exists b, Job.live d = JS.boolean b) /\
              Job.url d =
                JS.str (Rfc3986.resolve
                          (or_empty
                             (JobsArgs.streamRootUrl
                                {| JobsArgs.dead := false;
                                   JobsArgs.streamRootUrl := Some "http://root/";
                                   JobsArgs.broadcaster := None |}))
                          (Job.stream d ++ ".m3u8")))
           out.
Proof.
  apply (jobs_returns_derived_fields Rfc3986.resolve
           (Sample.only_under "http://root/s2")
           (Sample.serves [Sample.raw1; Sample.raw2; Sample.raw3])
           (createResolvers [])
           {| JobsArgs.dead := false; JobsArgs.streamRootUrl := Some "http://root/";
              JobsArgs.broadcaster := None |}
           [Sample.raw1; Sample.raw2; Sample.raw3]).
  reflexivity.
Defined.

Lemma jobs_live_are_uncached_video_witness :
  exists all st',
    (forall dead,
        run (jobs Rfc3986.resolve (Sample.only_under "http://root/s2")
               (Sample.serves [Sample.raw1; Sample.raw2; Sample.raw3])
               {| JobsArgs.dead := dead; JobsArgs.streamRootUrl := Some "http://root/";
                  JobsArgs.broadcaster := None |}) (createResolvers [])
        = (Returned (if dead then all
                     else filter (fun x => Job.live x = JS.boolean true) all),
           st')) /\
    Forall (fun d => Job.id d ∈ DEAD_JOBS (createResolvers []) ->
                     Job.live d = JS.boolean false) all /\
    Forall (fun d => Job.live d = JS.boolean true ->
                     Job.type d = "VideoJob" /\
                     Job.id d ∉ DEAD_JOBS (createResolvers [])) all.
Proof.
  apply (jobs_live_are_uncached_video Rfc3986.resolve
           (Sample.only_under "http://root/s2")
           (Sample.serves [Sample.raw1; Sample.raw2; Sample.raw3])
           (createResolvers []) (Some "http://root/") None
           [Sample.raw1; Sample.raw2; Sample.raw3]).
  reflexivity.
Defined.

Lemma jobs_live_by_probe_witness :
  exists all st' d,
    run (jobs Rfc3986.resolve (Sample.only_under "http://root/s2")
           (Sample.serves [Sample.raw1; Sample.raw2; Sample.raw3])
           {| JobsArgs.dead := true; JobsArgs.streamRootUrl := Some "http://root/";
              JobsArgs.broadcaster := None |}) (createResolvers [])
    = (Returned all, st') /\
    all !! 1%nat = Some d /\
    Job.id d = jobId Sample.raw2 /\
    Job.live d =
      JS.boolean
        match Sample.only_under "http://root/s2"
                (asked_before Rfc3986.resolve (Some "http://root/")
                   (createResolvers []) None
                   (map transformJob [Sample.raw1; Sample.raw2; Sample.raw3]) 1)
                (Rfc3986.resolve (or_empty (Some "http://root/"))
                   (streamId Sample.raw2 ++ ".m3u8")) with
        | Returned res => (status res =? 200)%Z
        | Thrown _ => false
        end.
Proof.
  apply (jobs_live_by_probe Rfc3986.resolve (Sample.only_under "http://root/s2")
           (Sample.serves [Sample.raw1; Sample.raw2; Sample.raw3])
           (createResolvers []) (Some "http://root/") None
           [Sample.raw1; Sample.raw2; Sample.raw3] 1 Sample.raw2).
  - reflexivity.
  - reflexivity.
  - simpl. discriminate.
  - simpl. apply not_elem_of_empty.
Defined.

Lemma jobs_cache_after_witness :
  exists st',
    (forall dead,
        (run (jobs Rfc3986.resolve (Sample.only_under "http://root/s2")
                (Sample.serves [Sample.raw1; Sample.raw2; Sample.raw3])
                {| JobsArgs.dead := dead; JobsArgs.streamRootUrl := Some "http://root/";
                   JobsArgs.broadcaster := None |}) (createResolvers [])).2 = st') /\
    forall id,
      id ∈ DEAD_JOBS st' <->
      id ∈ DEAD_JOBS (createResolvers []) \/
      exists i raw e,
        [Sample.raw1; Sample.raw2; Sample.raw3] !! i = Some raw /\ jobId raw = id /\
        transcodingOptions raw <> [] /\
        Sample.only_under "http://root/s2"
          (asked_before Rfc3986.resolve (Some "http://root/") (createResolvers []) None
             (map transformJob [Sample.raw1; Sample.raw2; Sample.raw3]) i)
          (Rfc3986.resolve (or_empty (Some "http://root/")) (streamId raw ++ ".m3u8"))
        = Thrown e.
Proof.
  apply (jobs_cache_after Rfc3986.resolve (Sample.only_under "http://root/s2")
           (Sample.serves [Sample.raw1; Sample.raw2; Sample.raw3])
           (createResolvers []) (Some "http://root/") None
           [Sample.raw1; Sample.raw2; Sample.raw3]).
  reflexivity.
Defined.

Lemma jobs_fields_resolve_as_carried_witness :
  exists out st',
    run (jobs Rfc3986.resolve (Sample.only_under "http://root/s2")
           (Sample.serves [Sample.raw1; Sample.raw2; Sample.raw3])
           {| JobsArgs.dead := true; JobsArgs.streamRootUrl := Some "http://root/";
              JobsArgs.broadcaster := None |}) (createResolvers [])
    = (Returned out, st') /\
    Forall (fun d =>
              forall root' st2,
                live Rfc3986.resolve (Sample.only_under "http://root/s2") d root' st2
                = (Fin (Returned (Job.live d)), st2) /\
                JS.str (url Rfc3986.resolve (Job.stream d) (Job.url d) root')
                = Job.url d)
           out.
Proof.
  apply (jobs_fields_resolve_as_carried Rfc3986.resolve
           (Sample.only_under "http://root/s2")
           (Sample.serves [Sample.raw1; Sample.raw2; Sample.raw3])
           (createResolvers [])
           {| JobsArgs.dead := true; JobsArgs.streamRootUrl := Some "http://root/";
              JobsArgs.broadcaster := None |}
           [Sample.raw1; Sample.raw2; Sample.raw3]).
  reflexivity.
Defined.

Lemma batch_settles_in_any_order_witness :
  exists ds ds',
    settle_all
      (start_all
         (map (jobs_entry Rfc3986.resolve Sample.unreachable (Some "http://root/"))
              (map transformJob [Sample.raw1; Sample.raw2; Sample.raw3]))
         (createResolvers [])).1
      (createResolvers [])
    = (Returned ds,
       (settle_all
          (reverse
             (start_all
                (map (jobs_entry Rfc3986.resolve Sample.unreachable (Some "http://root/"))
                     (map transformJob [Sample.raw1; Sample.raw2; Sample.raw3]))
                (createResolvers [])).1)
          (createResolvers [])).2) /\
    (settle_all
       (reverse
          (start_all
             (map (jobs_entry Rfc3986.resolve Sample.unreachable (Some "http://root/"))
                  (map transformJob [Sample.raw1; Sample.raw2; Sample.raw3]))
             (createResolvers [])).1)
       (createResolvers [])).1 = Returned ds' /\
    ds ≡ₚ ds' /\
    Forall2 decorates ds (map transformJob [Sample.raw1; Sample.raw2; Sample.raw3]).
Proof.
  apply (batch_settles_in_any_order Rfc3986.resolve Sample.unreachable
           (Some "http://root/")
           (map transformJob [Sample.raw1; Sample.raw2; Sample.raw3])
           (createResolvers [])).
  symmetry. apply reverse_Permutation.
Defined.

Lemma DEAD_JOBS_stays_empty_witness :
  DEAD_JOBS
    ({| DEAD_JOBS := ∅; trace := [Fetch "http://root/s2.m3u8"] |},
     [Fin (Returned (ReplyValue (JS.boolean false)))]).1 = ∅.
Proof.
  apply (DEAD_JOBS_stays_empty Rfc3986.resolve (Sample.answers 404)
           (Sample.lookup [Sample.raw2]) (Sample.serves [Sample.raw2])
           (fun _ _ => ex_intro _ {| status := 404 |} eq_refl) []).
  eapply rtc_l.
  { apply (step_invoke _ _ _ _
             (Call_live (transformJob Sample.raw2) (Some "http://root/"))).
    reflexivity. }
  eapply rtc_l.
  { eapply (step_resume _ _ _ _ 0%nat); reflexivity. }
  apply rtc_refl.
Defined.

Lemma jobs_fails_with_rpc_witness :
  run (jobs Rfc3986.resolve (Sample.answers 200) Sample.down
         {| JobsArgs.dead := true; JobsArgs.streamRootUrl := Some "http://root/";
            JobsArgs.broadcaster := Some "0xB" |}) (createResolvers [])
  = (Thrown "rpc unavailable",
     {| DEAD_JOBS := DEAD_JOBS (createResolvers []);
        trace :=
          (trace (createResolvers []) ++
           [GetJobs (JobsArgs.broadcaster
                       {| JobsArgs.dead := true;
                          JobsArgs.streamRootUrl := Some "http://root/";
                          JobsArgs.broadcaster := Some "0xB" |})])%list |}).
Proof.
  apply (jobs_fails_with_rpc Rfc3986.resolve (Sample.answers 200) Sample.down
           {| JobsArgs.dead := true; JobsArgs.streamRootUrl := Some "http://root/";
              JobsArgs.broadcaster := Some "0xB" |}
           (createResolvers []) "rpc unavailable").
  reflexivity.
Defined.

Lemma live_overlapping_checks_both_probe_witness :
  exists c1 st1 c2 st2,
    live Rfc3986.resolve Sample.unreachable (transformJob Sample.raw3)
      (Some "http://root/") (createResolvers []) = (c1, st1) /\
    live Rfc3986.resolve Sample.unreachable (transformJob Sample.raw3)
      (Some "http://mirror/") st1 = (c2, st2) /\
    DEAD_JOBS st2 = DEAD_JOBS (createResolvers []) /\
    trace st2 =
      (trace (createResolvers []) ++
       [Fetch (videoUrl_of Rfc3986.resolve (transformJob Sample.raw3)
                 (Some "http://root/"));
        Fetch (videoUrl_of Rfc3986.resolve (transformJob Sample.raw3)
                 (Some "http://mirror/"))])%list.
Proof.
  apply (live_overlapping_checks_both_probe Rfc3986.resolve Sample.unreachable
           (transformJob Sample.raw3) (Some "http://root/") (Some "http://mirror/")
           (createResolvers [])).
  - simpl. discriminate.
  - simpl. apply not_elem_of_empty.
Defined.
